(** * base58check: Base58 and Base58Check encoding

    A shallow embedding of [base58check/__init__.py] and the properties its
    specification states about it.

    Conventions of the embedding:
    - a Python [bytes] value is a [list byte];
    - a Python [int] that is built from bytes or symbols (and is therefore
      never negative) is an [N]; [address_version], which the caller chooses,
      is a [Z];
    - a Python [str] is a [string] (code points below 256);
    - a call either returns, raises, or runs a [while] loop longer than the
      iteration bound of the model: see [outcome]. *)

From Stdlib Require Import Ascii String.
From Stdlib Require Import NArith ZArith List Lia Bool.
From Stdlib Require Import Strings.Byte.
From Stdlib Require Hexadecimal HexadecimalString.
Import ListNotations.

Local Open Scope N_scope.

Definition bytes := list byte.

(** ** Exceptions and results *)

(** The reasons for which the program's calls raise [ValueError]. *)
Inductive value_error : Type :=
| charset_base (base : nat)   (* 'charset base must be 58, not %s' % base *)
| subsection_not_found        (* bytes.index: the byte does not occur *)
| non_hexadecimal             (* bytes.fromhex: not a sequence of hex pairs *)
| byte_range                  (* bytes(iterable): an int outside range(256) *)
| unicode_encode.             (* str.encode: UnicodeEncodeError, a ValueError *)

Inductive exn : Type :=
| TypeError
| IndexError
| ValueError (why : value_error)
| IncorrectAddress.

Inductive outcome (A : Type) : Type :=
| OK (a : A)
| Raise (e : exn)
| OutOfFuel.
Arguments OK {A} a.
Arguments Raise {A} e.
Arguments OutOfFuel {A}.

Definition bind {A B} (m : outcome A) (k : A -> outcome B) : outcome B :=
  match m with
  | OK a => k a
  | Raise e => Raise e
  | OutOfFuel => OutOfFuel
  end.

Notation "x <- m ;; k" := (bind m (fun x => k))
  (at level 61, m at next level, right associativity).
Notation "' p <- m ;; k" := (bind m (fun x => let 'p := x in k))
  (at level 61, p pattern, m at next level, right associativity).

(** The error names of the specification, as predicates on what is raised. *)
Definition ConfigError (e : exn) : Prop :=
  exists base, e = ValueError (charset_base base).
Definition InvalidSymbol : exn := ValueError subsection_not_found.
Definition InvalidAddress : exn := IncorrectAddress.

(** ** The Python operations the program uses *)

(** Arguments that may be [bytes] or [str]. *)
Inductive pyobj : Type :=
| PyBytes (b : bytes)
| PyStr (s : string).

Definition ord (c : ascii) : N := N_of_ascii c.

Definition byte_of_N (n : N) : byte :=
  match Byte.of_N (n mod 256) with
  | Some b => b
  | None => x00
  end.

(** [s.encode('ascii')] *)
Fixpoint encode_ascii (s : string) : outcome bytes :=
  match s with
  | EmptyString => OK []
  | String c rest =>
      if ord c <? 128
      then (tl <- encode_ascii rest ;; OK (byte_of_N (ord c) :: tl))
      else Raise (ValueError unicode_encode)
  end.

(** [s.encode()], UTF-8, on code points below 256 *)
Fixpoint encode_utf8 (s : string) : bytes :=
  match s with
  | EmptyString => []
  | String c rest =>
      (if ord c <? 128
       then [byte_of_N (ord c)]
       else [byte_of_N (N.lor 192 (N.shiftr (ord c) 6));
             byte_of_N (N.lor 128 (N.land (ord c) 63))])
      ++ encode_utf8 rest
  end.

(** [l[start:stop]] with Python's clamping of the bounds; [None] is an
    omitted bound. *)
Definition slice_bound (len : nat) (i : Z) : nat :=
  if (i <? 0)%Z
  then Z.to_nat (Z.max 0 (Z.of_nat len + i))
  else Nat.min len (Z.to_nat i).

Definition slice {A} (l : list A) (start stop : option Z) : list A :=
  let len := length l in
  let lo := match start with None => O | Some i => slice_bound len i end in
  let hi := match stop with None => len | Some i => slice_bound len i end in
  firstn (hi - lo) (skipn lo l).

(** [x == y] on bytes *)
Definition bytes_eqb (x y : bytes) : bool :=
  if list_eq_dec Byte.byte_eq_dec x y then true else false.

(** [val.lstrip(chars)] *)
Fixpoint lstrip (chars val : bytes) : bytes :=
  match val with
  | [] => []
  | b :: rest =>
      if existsb (Byte.eqb b) chars then lstrip chars rest else val
  end.

(** [charset.index(char)] *)
Fixpoint index (charset : bytes) (char : byte) : outcome N :=
  match charset with
  | [] => Raise (ValueError subsection_not_found)
  | c :: rest =>
      if Byte.eqb c char then OK 0
      else (i <- index rest char ;; OK (N.succ i))
  end.

(** [bytes(ints)] *)
Fixpoint bytes_of_ints (ints : list N) : outcome bytes :=
  match ints with
  | [] => OK []
  | i :: rest =>
      match Byte.of_N i with
      | Some b => (tl <- bytes_of_ints rest ;; OK (b :: tl))
      | None => Raise (ValueError byte_range)
      end
  end.

(** [bytes([charset[0]])]: indexing an empty sequence raises [IndexError],
    and [bytes] of a list holding a [str] raises [TypeError]. *)
Definition bytes_of_first (charset : pyobj) : outcome bytes :=
  match charset with
  | PyBytes [] => Raise IndexError
  | PyBytes (c :: _) => OK [c]
  | PyStr EmptyString => Raise IndexError
  | PyStr (String _ _) => Raise TypeError
  end.

(** The number of iterations allowed to a [while] loop that divides [n] by
    a base of at least 2 until it is zero: its bit length, and one more for
    the test that leaves the loop. *)
Definition fuel_of (n : N) : nat := S (N.to_nat (N.size n)).

(** ** Base58 codec *)

Definition DEFAULT_CHARSET : bytes :=
  list_byte_of_string
    "123456789ABCDEFGHJKLMNPQRSTUVWXYZabcdefghijkmnopqrstuvwxyz".

(** The [while int_:] loop of [_b58encode_int]. *)
Fixpoint _b58encode_int_loop (fuel : nat) (charset : bytes) (base : N)
    (int_ : N) (output : bytes) : outcome bytes :=
  match fuel with
  | O => OutOfFuel
  | S fuel' =>
      if int_ =? 0 then OK output
      else
        let (int_', idx) := N.div_eucl int_ base in
        let i := Z.of_N idx in
        _b58encode_int_loop fuel' charset base int_'
          (slice charset (Some i) (Some (i + 1)%Z) ++ output)
  end.

(** [_b58encode_int(int_, default)], the helper nested in [b58encode];
    [charset] and [base] are the variables of the enclosing call, and
    [default=False] is [None]. *)
Definition _b58encode_int (charset : bytes) (base : N) (int_ : N)
    (default : option bytes) : outcome bytes :=
  let truthy :=
    match default with
    | Some (_ :: _) => true
    | _ => false
    end in
  if (int_ =? 0) && truthy
  then OK (match default with Some d => d | None => [] end)
  else _b58encode_int_loop (fuel_of int_) charset base int_ [].

Definition b58encode (val charset : pyobj) : outcome bytes :=
  (* def _b58encode_int(int_, default=bytes([charset[0]])): the default is
     evaluated when the def statement runs *)
  _default <- bytes_of_first charset ;;
  val <- match val with
         | PyBytes b => OK b
         | PyStr _ => Raise TypeError
         end ;;
  charset <- match charset with
             | PyStr s => encode_ascii s
             | PyBytes b => OK b
             end ;;
  let base := length charset in
  if negb (Nat.eqb base 58) then Raise (ValueError (charset_base base))
  else
    let pad_len := length val in
    let val := lstrip [x00] val in
    let pad_len := (pad_len - length val)%nat in
    let '(p, acc) :=
      fold_left (fun '(p, acc) char => (N.shiftl p 8, acc + p * Byte.to_N char))
                (rev val) (1, 0) in
    result <- _b58encode_int charset (N.of_nat base) acc None ;;
    c0 <- bytes_of_first (PyBytes charset) ;;
    let prefix := concat (repeat c0 pad_len) in
    OK (prefix ++ result).

(** [_b58decode_int(val)], the helper nested in [b58decode]. *)
Fixpoint _b58decode_int_from (charset : bytes) (base : N) (val : bytes)
    (output : N) : outcome N :=
  match val with
  | [] => OK output
  | char :: rest =>
      i <- index charset char ;;
      _b58decode_int_from charset base rest (output * base + i)
  end.

Definition _b58decode_int (charset : bytes) (base : N) (val : bytes)
    : outcome N :=
  _b58decode_int_from charset base val 0.

(** The [while acc > 0:] loop of [b58decode]; [result] is the deque. *)
Fixpoint b58decode_loop (fuel : nat) (acc : N) (result : list N)
    : outcome (list N) :=
  match fuel with
  | O => OutOfFuel
  | S fuel' =>
      if 0 <? acc then
        let (acc', mod_) := N.div_eucl acc 256 in
        b58decode_loop fuel' acc' (mod_ :: result)
      else OK result
  end.

Definition b58decode (val charset : pyobj) : outcome bytes :=
  let val := match val with
             | PyStr s => encode_utf8 s
             | PyBytes b => b
             end in
  let charset := match charset with
                 | PyStr s => encode_utf8 s
                 | PyBytes b => b
                 end in
  let base := length charset in
  if negb (Nat.eqb base 58) then Raise (ValueError (charset_base base))
  else
    let pad_len := length val in
    c0 <- bytes_of_first (PyBytes charset) ;;
    let val := lstrip c0 val in
    let pad_len := (pad_len - length val)%nat in
    acc <- _b58decode_int charset (N.of_nat base) val ;;
    result <- b58decode_loop (fuel_of acc) acc [] ;;
    let prefix := repeat x00 pad_len in
    tail <- bytes_of_ints result ;;
    OK (prefix ++ tail).

(** ** SHA-256

    [hashlib.sha256(data).digest()], after FIPS 180-4.  The program only
    uses it as a function from bytes to a 32-byte digest. *)

Module SHA256.

Definition add32 (x y : N) : N := (x + y) mod 2 ^ 32.
Definition rotr (n x : N) : N :=
  N.lor (N.shiftr x n) (N.shiftl x (32 - n) mod 2 ^ 32).
Definition not32 (x : N) : N := N.lxor x (2 ^ 32 - 1).

Definition Ch (x y z : N) : N := N.lxor (N.land x y) (N.land (not32 x) z).
Definition Maj (x y z : N) : N :=
  N.lxor (N.lxor (N.land x y) (N.land x z)) (N.land y z).
Definition Sigma0 (x : N) : N :=
  N.lxor (N.lxor (rotr 2 x) (rotr 13 x)) (rotr 22 x).
Definition Sigma1 (x : N) : N :=
  N.lxor (N.lxor (rotr 6 x) (rotr 11 x)) (rotr 25 x).
Definition sigma0 (x : N) : N :=
  N.lxor (N.lxor (rotr 7 x) (rotr 18 x)) (N.shiftr x 3).
Definition sigma1 (x : N) : N :=
  N.lxor (N.lxor (rotr 17 x) (rotr 19 x)) (N.shiftr x 10).

(** [iroot k bit n 0] is the integer part of the [k]-th root of [n] when
    that root is below [2 ^ bit]: its bits are tried from the highest down. *)
Fixpoint iroot (k : N) (bit : nat) (n r : N) : N :=
  match bit with
  | O => r
  | S bit' =>
      let r' := r + 2 ^ N.of_nat bit' in
      iroot k bit' n (if r' ^ k <=? n then r' else r)
  end.

(** The first 32 bits of the fractional part of the [k]-th root of [p]. *)
Definition frac32 (k p : N) : N :=
  iroot k 36 (p * 2 ^ (32 * k)) 0 mod 2 ^ 32.

Definition primes : list N :=
  [2; 3; 5; 7; 11; 13; 17; 19; 23; 29; 31; 37; 41; 43; 47; 53;
   59; 61; 67; 71; 73; 79; 83; 89; 97; 101; 103; 107; 109; 113; 127; 131;
   137; 139; 149; 151; 157; 163; 167; 173; 179; 181; 191; 193; 197; 199;
   211; 223; 227; 229; 233; 239; 241; 251; 257; 263; 269; 271; 277; 281;
   283; 293; 307; 311].

(** The round constants: cube roots of the first 64 primes. *)
Definition K : list N := Eval vm_compute in map (frac32 3) primes.

Record state : Type := mkState
  { ra : N; rb : N; rc : N; rd : N; re : N; rf : N; rg : N; rh : N }.

(** The initial hash value: square roots of the first 8 primes. *)
Definition H0 : state :=
  Eval vm_compute in
    mkState (frac32 2 2) (frac32 2 3) (frac32 2 5) (frac32 2 7)
            (frac32 2 11) (frac32 2 13) (frac32 2 17) (frac32 2 19).

Definition round (s : state) (k w : N) : state :=
  let t1 :=
    add32 (add32 (add32 (add32 (rh s) (Sigma1 (re s)))
                        (Ch (re s) (rf s) (rg s))) k) w in
  let t2 := add32 (Sigma0 (ra s)) (Maj (ra s) (rb s) (rc s)) in
  mkState (add32 t1 t2) (ra s) (rb s) (rc s)
          (add32 (rd s) t1) (re s) (rf s) (rg s).

Fixpoint rounds (s : state) (ks ws : list N) : state :=
  match ks, ws with
  | k :: ks', w :: ws' => rounds (round s k w) ks' ws'
  | _, _ => s
  end.

(** The message schedule: [n] more words after those of [w]. *)
Fixpoint extend (n : nat) (w : list N) : list N :=
  match n with
  | O => w
  | S n' =>
      let t := length w in
      let wt :=
        add32 (add32 (add32 (sigma1 (nth (t - 2) w 0)) (nth (t - 7) w 0))
                     (sigma0 (nth (t - 15) w 0)))
              (nth (t - 16) w 0) in
      extend n' (w ++ [wt])
  end.

(** [count] pieces of [size] elements each. *)
Fixpoint chunks {A} (size count : nat) (l : list A) : list (list A) :=
  match count with
  | O => []
  | S count' => firstn size l :: chunks size count' (skipn size l)
  end.

Definition be_value (bs : bytes) : N :=
  fold_left (fun acc b => acc * 256 + Byte.to_N b) bs 0.

(** The [len] low bytes of [x], most significant first. *)
Fixpoint be_bytes (len : nat) (x : N) : bytes :=
  match len with
  | O => []
  | S len' => byte_of_N (N.shiftr x (8 * N.of_nat len')) :: be_bytes len' x
  end.

Definition compress (s : state) (block : bytes) : state :=
  let w := extend 48 (map be_value (chunks 4 16 block)) in
  let t := rounds s K w in
  mkState (add32 (ra s) (ra t)) (add32 (rb s) (rb t))
          (add32 (rc s) (rc t)) (add32 (rd s) (rd t))
          (add32 (re s) (re t)) (add32 (rf s) (rf t))
          (add32 (rg s) (rg t)) (add32 (rh s) (rh t)).

Definition pad (msg : bytes) : bytes :=
  let len := length msg in
  let zeros := ((64 - (len + 9) mod 64) mod 64)%nat in
  msg ++ [x80] ++ repeat x00 zeros ++ be_bytes 8 (8 * N.of_nat len).

Definition digest_of (s : state) : bytes :=
  be_bytes 4 (ra s) ++ be_bytes 4 (rb s) ++ be_bytes 4 (rc s)
  ++ be_bytes 4 (rd s) ++ be_bytes 4 (re s) ++ be_bytes 4 (rf s)
  ++ be_bytes 4 (rg s) ++ be_bytes 4 (rh s).

Definition digest (msg : bytes) : bytes :=
  let padded := pad msg in
  digest_of
    (fold_left compress (chunks 64 (length padded / 64) padded) H0).

End SHA256.

Definition sha256 : bytes -> bytes := SHA256.digest.

(** ** Base58Check protocol *)

(** [hex(i)] *)
Definition hex (i : Z) : string :=
  ((if (i <? 0)%Z then "-" else "") ++ "0x"
   ++ HexadecimalString.NilEmpty.string_of_uint (N.to_hex_uint (Z.abs_N i)))%string.

(** [s.removeprefix(prefix)] *)
Definition removeprefix (prefix s : string) : string :=
  if String.prefix prefix s
  then String.substring (String.length prefix)
                        (String.length s - String.length prefix) s
  else s.

Definition hex_value (c : ascii) : option N :=
  let n := ord c in
  if (48 <=? n) && (n <=? 57) then Some (n - 48)
  else if (97 <=? n) && (n <=? 102) then Some (n - 87)
  else if (65 <=? n) && (n <=? 70) then Some (n - 55)
  else None.

Definition isspace (c : ascii) : bool :=
  let n := ord c in (n =? 32) || ((9 <=? n) && (n <=? 13)).

(** [bytes.fromhex(s)]: pairs of hexadecimal digits, white space allowed
    between the pairs. *)
Fixpoint fromhex (s : string) : outcome bytes :=
  match s with
  | EmptyString => OK []
  | String c rest =>
      if isspace c then fromhex rest
      else
        match hex_value c, rest with
        | Some top, String c' rest' =>
            match hex_value c' with
            | Some bot =>
                tl <- fromhex rest' ;; OK (byte_of_N (top * 16 + bot) :: tl)
            | None => Raise (ValueError non_hexadecimal)
            end
        | _, _ => Raise (ValueError non_hexadecimal)
        end
  end.

(** [v_addr + val]: concatenating [bytes] and [str] raises [TypeError]. *)
Definition bytes_add (x : bytes) (y : pyobj) : outcome bytes :=
  match y with
  | PyBytes b => OK (x ++ b)
  | PyStr _ => Raise TypeError
  end.

(** The first four statements of [b58check_encode]: the version as bytes. *)
Definition v_addr_of (address_version : Z) : outcome bytes :=
  let v_addr := removeprefix "0x" (hex address_version) in
  let v_addr :=
    if Nat.eqb (String.length v_addr) 1 then ("0" ++ v_addr)%string
    else v_addr in
  fromhex v_addr.

Definition b58check_encode (val : pyobj) (address_version : Z)
    (charset : pyobj) : outcome bytes :=
  v_addr <- v_addr_of address_version ;;
  payload <- bytes_add v_addr val ;;
  let chk_sum := slice (sha256 (sha256 payload)) None (Some 4%Z) in
  b58encode (PyBytes (payload ++ chk_sum)) charset.

Definition b58check_address_is_valid (val charset : pyobj) : outcome bool :=
  b58check_address_bytes <- b58decode val charset ;;
  let expected_chk_sum := slice b58check_address_bytes (Some (-4)%Z) None in
  let actual_chk_sum :=
    slice (sha256 (sha256 (slice b58check_address_bytes None (Some (-4)%Z))))
          None (Some 4%Z) in
  if negb (bytes_eqb expected_chk_sum actual_chk_sum)
  then OK false
  else OK true.

Definition b58check_decode (val charset : pyobj) : outcome bytes :=
  valid <- b58check_address_is_valid val charset ;;
  if negb valid then Raise IncorrectAddress
  else
    raw <- b58decode val charset ;;
    OK (slice raw (Some 1%Z) (Some (-4)%Z)).

(** ** Notions of the specification *)

(** [charset[d]], the symbol of digit [d]. *)
Definition symbol (charset : bytes) (d : N) : byte :=
  nth (N.to_nat d) charset x00.

(** An alphabet of the data model: 58 distinct byte values. *)
Definition valid_alphabet (charset : bytes) : Prop :=
  length charset = 58%nat /\ NoDup charset.

Fixpoint nodupb (l : bytes) : bool :=
  match l with
  | [] => true
  | x :: rest => negb (existsb (Byte.eqb x) rest) && nodupb rest
  end.

(** The list does not start with [c]. *)
Definition not_head {A} (c : A) (l : list A) : Prop :=
  match l with
  | [] => True
  | x :: _ => x <> c
  end.

(** Positional notation in base [b], most significant digit first: the
    number a list of digits denotes, and the digits of a number. *)
Definition of_digits (b : N) (ds : list N) (acc : N) : N :=
  fold_left (fun a d => a * b + d) ds acc.

Fixpoint to_digits (b : N) (fuel : nat) (n : N) (acc : list N) : list N :=
  match fuel with
  | O => acc
  | S fuel' =>
      if n =? 0 then acc else to_digits b fuel' (n / b) (n mod b :: acc)
  end.

Definition digits (b n : N) : list N :=
  to_digits b (N.to_nat (N.size n)) n [].

Definition nz_head (ds : list N) : Prop :=
  match ds with
  | [] => True
  | d :: _ => d <> 0
  end.

(** The symbols that [_b58encode_int] writes for a list of digits. *)
Definition symbols (charset : bytes) (ds : list N) : bytes :=
  flat_map (fun d => slice charset (Some (Z.of_N d)) (Some (Z.of_N d + 1)%Z)) ds.

(** The check that version [n] is rendered as the one byte [n]. *)
Definition version_byte_ok (n : nat) : bool :=
  match v_addr_of (Z.of_nat n) with
  | OK [x] => Byte.eqb x (byte_of_N (N.of_nat n))
  | _ => false
  end.

(** [s.isascii()] *)
Fixpoint isascii (s : string) : bool :=
  match s with
  | EmptyString => true
  | String c rest => (ord c <? 128) && isascii rest
  end.

(** The checks that version [n] is refused by [bytes.fromhex], and that it
    is rendered as the two bytes of [n], high byte first. *)
Definition version_refused (n : nat) : bool :=
  match v_addr_of (Z.of_nat n) with
  | Raise (ValueError non_hexadecimal) => true
  | _ => false
  end.

Definition version_two_bytes (v : Z) : bool :=
  match v_addr_of v with
  | OK [hi; lo] =>
      Byte.eqb hi (byte_of_N (Z.to_N v / 256))
      && Byte.eqb lo (byte_of_N (Z.to_N v))
  | _ => false
  end.

Definition version_two_bytes_row (hi : nat) : bool :=
  forallb (fun lo => version_two_bytes (Z.of_nat hi * 256 + Z.of_nat lo)%Z)
          (seq 0 256).

(** The test vectors of [tests/test_base58check.py]. *)
Definition CUSTOM_CHARSET : bytes :=
  list_byte_of_string
    "rpshnaf39wBUDNEGHJKLM4PQRST7VWXYZ2bcdeCg65jkm8oFqi1tuvAxyz".

(** ** Positional notation

    Both loops of the codec write a number in a base ([58] with symbols,
    [256] with bytes), and both folds read one back.  [to_digits] and
    [of_digits] are the two directions on plain lists of digits. *)

Lemma pow2_succ k : 2 ^ N.of_nat (S k) = 2 * 2 ^ N.of_nat k.
Proof. rewrite Nat2N.inj_succ, N.pow_succ_r'. reflexivity. Qed.

Lemma below_one n : n < 2 ^ N.of_nat 0 -> n = 0.
Proof. simpl. lia. Qed.

Section Radix.

Variable b : N.
Hypothesis b_ge_2 : 2 <= b.

Lemma div_below n k : n < 2 ^ N.of_nat (S k) -> n / b < 2 ^ N.of_nat k.
Proof.
  intros Hn. rewrite pow2_succ in Hn.
  apply N.Div0.div_lt_upper_bound.
  assert (0 < 2 ^ N.of_nat k) by (apply N.neq_0_lt_0, N.pow_nonzero; lia).
  nia.
Qed.

Lemma to_digits_acc k : forall n acc,
  to_digits b k n acc = to_digits b k n [] ++ acc.
Proof.
  induction k as [|k IH]; intros n acc; simpl; [reflexivity|].
  destruct (n =? 0); [reflexivity|].
  rewrite IH, (IH _ [n mod b]), <- app_assoc. reflexivity.
Qed.

Lemma of_digits_app ds es acc :
  of_digits b (ds ++ es) acc = of_digits b es (of_digits b ds acc).
Proof. apply fold_left_app. Qed.

Lemma of_digits_shift ds : forall acc,
  of_digits b ds acc = acc * b ^ N.of_nat (length ds) + of_digits b ds 0.
Proof.
  induction ds as [|d ds IH]; intros acc.
  - simpl. lia.
  - cbn [of_digits fold_left length]. fold (of_digits b ds (acc * b + d)).
    fold (of_digits b ds (0 * b + d)).
    rewrite IH, (IH (0 * b + d)), Nat2N.inj_succ, N.pow_succ_r'. lia.
Qed.

(** Reading back what [to_digits] wrote gives the number. *)
Lemma of_to_digits k : forall n acc,
  n < 2 ^ N.of_nat k ->
  of_digits b (to_digits b k n acc) 0 = of_digits b acc n.
Proof.
  induction k as [|k IH]; intros n acc Hn.
  - apply below_one in Hn. subst n. reflexivity.
  - simpl. destruct (N.eqb_spec n 0) as [->|Hnz]; [reflexivity|].
    rewrite IH by (apply div_below; exact Hn).
    unfold of_digits. cbn [fold_left]. f_equal.
    rewrite N.mul_comm. symmetry. apply N.div_mod. lia.
Qed.

Lemma to_digits_bounded k : forall n acc,
  Forall (fun d => d < b) acc ->
  Forall (fun d => d < b) (to_digits b k n acc).
Proof.
  induction k as [|k IH]; intros n acc Hacc; simpl; [exact Hacc|].
  destruct (n =? 0); [exact Hacc|].
  apply IH. constructor; [apply N.mod_lt; lia | exact Hacc].
Qed.

Lemma to_digits_nz_head k : forall n acc,
  n < 2 ^ N.of_nat k ->
  (n = 0 -> nz_head acc) ->
  nz_head (to_digits b k n acc).
Proof.
  induction k as [|k IH]; intros n acc Hn Hacc.
  - apply Hacc, below_one, Hn.
  - simpl. destruct (N.eqb_spec n 0) as [->|Hnz]; [apply Hacc; reflexivity|].
    apply IH; [apply div_below; exact Hn|].
    intros Hq. simpl.
    pose proof (N.div_mod n b ltac:(lia)) as E. rewrite Hq in E. lia.
Qed.

Lemma of_digits_nz ds :
  ds <> [] -> nz_head ds -> of_digits b ds 0 <> 0.
Proof.
  destruct ds as [|d ds]; [congruence|]. intros _ Hd. simpl in Hd.
  cbn [of_digits fold_left]. fold (of_digits b ds (0 * b + d)).
  rewrite of_digits_shift.
  assert (0 < b ^ N.of_nat (length ds))
    by (apply N.neq_0_lt_0, N.pow_nonzero; lia).
  nia.
Qed.

(** Writing a number read from digits without a leading zero gives the
    digits back. *)
Lemma to_of_digits ds : forall k acc,
  Forall (fun d => d < b) ds ->
  nz_head ds ->
  of_digits b ds 0 < 2 ^ N.of_nat k ->
  to_digits b k (of_digits b ds 0) acc = ds ++ acc.
Proof.
  induction ds as [|d ds IH] using rev_ind; intros k acc Hb Hnz Hk.
  - destruct k; simpl; reflexivity.
  - apply Forall_app in Hb. destruct Hb as [Hb Hd].
    inversion Hd as [|? ? Hdb _]; subst.
    rewrite of_digits_app in *. cbn [of_digits fold_left] in *.
    fold (of_digits b ds 0) in *. set (m := of_digits b ds 0) in *.
    assert (Hdiv : (m * b + d) / b = m)
      by (rewrite N.add_comm, N.div_add by lia;
          rewrite N.div_small by exact Hdb; reflexivity).
    assert (Hmod : (m * b + d) mod b = d)
      by (rewrite N.add_comm, N.Div0.mod_add; apply N.mod_small, Hdb).
    assert (Hne : m * b + d <> 0).
    { destruct ds as [|e ds].
      - simpl in Hnz. subst m. simpl. lia.
      - assert (m <> 0) by (apply of_digits_nz; [discriminate | exact Hnz]).
        nia. }
    destruct k as [|k]; [apply below_one in Hk; contradiction|].
    simpl. destruct (N.eqb_spec (m * b + d) 0) as [E|_]; [contradiction|].
    rewrite Hdiv, Hmod.
    rewrite IH.
    + rewrite <- app_assoc. reflexivity.
    + exact Hb.
    + destruct ds; [exact I | exact Hnz].
    + rewrite <- Hdiv. apply div_below, Hk.
Qed.

End Radix.

(** ** Facts about the Python operations *)

Lemma byte_eqb_spec (x y : byte) : reflect (x = y) (Byte.eqb x y).
Proof.
  destruct (Byte.eqb x y) eqn:E; constructor.
  - apply Byte.byte_dec_bl, E.
  - apply Byte.eqb_false, E.
Qed.

Lemma byte_of_to_N (x : byte) : byte_of_N (Byte.to_N x) = x.
Proof.
  unfold byte_of_N. pose proof (Byte.to_N_bounded x).
  rewrite N.mod_small by lia. rewrite Byte.of_to_N. reflexivity.
Qed.

Lemma to_of_byte_N (d : N) : d < 256 -> Byte.to_N (byte_of_N d) = d.
Proof.
  intros Hd. unfold byte_of_N. rewrite N.mod_small by exact Hd.
  destruct (Byte.of_N d) as [x|] eqn:E.
  - apply Byte.to_of_N, E.
  - apply Byte.of_N_None_iff in E. lia.
Qed.

Lemma of_N_byte_of_N (d : N) : d < 256 -> Byte.of_N d = Some (byte_of_N d).
Proof.
  intros Hd. apply Byte.to_of_N_iff, to_of_byte_N, Hd.
Qed.

Lemma map_byte_of_to_N (bs : bytes) : map byte_of_N (map Byte.to_N bs) = bs.
Proof.
  induction bs as [|x bs IH]; simpl; [reflexivity|].
  rewrite byte_of_to_N, IH. reflexivity.
Qed.

Lemma map_to_of_byte_N (ds : list N) :
  Forall (fun d => d < 256) ds -> map Byte.to_N (map byte_of_N ds) = ds.
Proof.
  induction 1 as [|d ds Hd _ IH]; simpl; [reflexivity|].
  rewrite to_of_byte_N, IH by exact Hd. reflexivity.
Qed.

Lemma bytes_of_ints_bounded (ds : list N) :
  Forall (fun d => d < 256) ds -> bytes_of_ints ds = OK (map byte_of_N ds).
Proof.
  induction 1 as [|d ds Hd _ IH]; simpl; [reflexivity|].
  rewrite (of_N_byte_of_N d Hd), IH. reflexivity.
Qed.

(** *** Stripping *)

Lemma lstrip_not_head (c : byte) (val : bytes) : not_head c (lstrip [c] val).
Proof.
  induction val as [|x val IH]; simpl; [exact I|].
  destruct (byte_eqb_spec x c) as [->|Hne]; simpl; [exact IH | exact Hne].
Qed.

Lemma lstrip_split (c : byte) (val : bytes) :
  exists z, val = repeat c z ++ lstrip [c] val.
Proof.
  induction val as [|x val [z IH]]; simpl.
  - exists O. reflexivity.
  - destruct (byte_eqb_spec x c) as [->|Hne]; simpl.
    + exists (S z). simpl. f_equal. exact IH.
    + exists O. reflexivity.
Qed.

Lemma lstrip_repeat (c : byte) (z : nat) (rest : bytes) :
  not_head c rest -> lstrip [c] (repeat c z ++ rest) = rest.
Proof.
  intros Hrest. induction z as [|z IH]; simpl.
  - destruct rest as [|x rest]; simpl; [reflexivity|].
    simpl in Hrest. destruct (byte_eqb_spec x c); [contradiction|reflexivity].
  - destruct (byte_eqb_spec c c); [exact IH | congruence].
Qed.

Lemma pad_len_repeat {A} (c : A) (z : nat) (rest : list A) :
  (length (repeat c z ++ rest) - length rest = z)%nat.
Proof. rewrite length_app, repeat_length. lia. Qed.

Lemma concat_repeat_one {A} (c : A) (z : nat) :
  concat (repeat [c] z) = repeat c z.
Proof. induction z as [|z IH]; simpl; [reflexivity|]. rewrite IH. reflexivity. Qed.

(** *** Slices *)

Lemma firstn_one_skipn {A} (d : A) (l : list A) : forall n,
  (n < length l)%nat -> firstn 1 (skipn n l) = [nth n l d].
Proof.
  induction l as [|x l IH]; intros n Hn; simpl in Hn; [lia|].
  destruct n as [|n]; simpl; [reflexivity|]. apply IH. lia.
Qed.

Lemma slice_symbol (charset : bytes) (d : N) :
  d < N.of_nat (length charset) ->
  slice charset (Some (Z.of_N d)) (Some (Z.of_N d + 1)%Z) = [symbol charset d].
Proof.
  intros Hd. unfold slice, slice_bound, symbol.
  destruct (Z.ltb_spec (Z.of_N d) 0) as [H|_]; [lia|].
  destruct (Z.ltb_spec (Z.of_N d + 1) 0) as [H|_]; [lia|].
  replace (Z.to_nat (Z.of_N d)) with (N.to_nat d) by lia.
  replace (Z.to_nat (Z.of_N d + 1)) with (S (N.to_nat d)) by lia.
  rewrite !Nat.min_r by lia.
  replace (S (N.to_nat d) - N.to_nat d)%nat with 1%nat by lia.
  apply firstn_one_skipn. lia.
Qed.

Lemma slice_last4 {A} (l : list A) :
  slice l (Some (-4)%Z) None = skipn (length l - 4) l.
Proof.
  unfold slice, slice_bound. change (-4 <? 0)%Z with true. cbv iota.
  replace (Z.to_nat (Z.max 0 (Z.of_nat (length l) + -4)))
    with (length l - 4)%nat by lia.
  rewrite firstn_all2; [reflexivity|]. rewrite length_skipn. lia.
Qed.

Lemma slice_but_last4 {A} (l : list A) :
  slice l None (Some (-4)%Z) = firstn (length l - 4) l.
Proof.
  unfold slice, slice_bound. change (-4 <? 0)%Z with true. cbv iota.
  replace (Z.to_nat (Z.max 0 (Z.of_nat (length l) + -4)))
    with (length l - 4)%nat by lia.
  rewrite Nat.sub_0_r. reflexivity.
Qed.

Lemma slice_first4 {A} (l : list A) : slice l None (Some 4%Z) = firstn 4 l.
Proof.
  unfold slice, slice_bound. change (4 <? 0)%Z with false. cbv iota.
  rewrite Nat.sub_0_r. simpl skipn. change (Z.to_nat 4) with 4%nat.
  destruct (Nat.min_spec (length l) 4) as [[H E]|[H E]]; rewrite E.
  - rewrite !firstn_all2 by lia. reflexivity.
  - reflexivity.
Qed.

Lemma slice_1_but_last4 {A} (l : list A) :
  slice l (Some 1%Z) (Some (-4)%Z) = skipn 1 (firstn (length l - 4) l).
Proof.
  unfold slice, slice_bound. change (-4 <? 0)%Z with true. cbv iota.
  replace (Z.to_nat (Z.max 0 (Z.of_nat (length l) + -4)))
    with (length l - 4)%nat by lia.
  change (1 <? 0)%Z with false. cbv iota.
  change (Z.to_nat 1) with 1%nat. rewrite (Nat.min_comm (length l) 1).
  destruct l as [|x l]; [reflexivity|].
  replace (Nat.min 1 (length (x :: l))) with 1%nat by (simpl; lia).
  rewrite skipn_firstn_comm. reflexivity.
Qed.

(** *** Looking symbols up *)

Lemma index_not_In (charset : bytes) (c : byte) :
  ~ In c charset -> index charset c = Raise InvalidSymbol.
Proof.
  induction charset as [|x charset IH]; intros Hc; simpl; [reflexivity|].
  destruct (byte_eqb_spec x c) as [->|_].
  - exfalso. apply Hc. left. reflexivity.
  - rewrite IH; [reflexivity|]. intros H. apply Hc. right. exact H.
Qed.

Lemma index_In (charset : bytes) (c : byte) :
  In c charset ->
  exists d, index charset c = OK d /\ d < N.of_nat (length charset)
            /\ symbol charset d = c.
Proof.
  induction charset as [|x charset IH]; intros Hc; [destruct Hc|].
  simpl index. destruct (byte_eqb_spec x c) as [->|Hne].
  - exists 0. split; [reflexivity|]. split; [simpl length; lia | reflexivity].
  - destruct Hc as [->|Hc]; [congruence|].
    destruct (IH Hc) as (d & Hd & Hlt & Hsym). exists (N.succ d).
    rewrite Hd. split; [reflexivity|]. split.
    + simpl length. lia.
    + unfold symbol in *. rewrite N2Nat.inj_succ. exact Hsym.
Qed.

Lemma index_symbol (charset : bytes) : forall d,
  NoDup charset -> d < N.of_nat (length charset) ->
  index charset (symbol charset d) = OK d.
Proof.
  induction charset as [|x charset IH]; intros d Hnd Hd; [simpl in Hd; lia|].
  inversion Hnd as [|? ? Hx Hnd']; subst. unfold symbol.
  destruct (N.to_nat d) as [|n] eqn:En; simpl nth; simpl index.
  - destruct (byte_eqb_spec x x); [f_equal; lia | congruence].
  - destruct (byte_eqb_spec x (nth n charset x00)) as [E|_].
    + exfalso. apply Hx. rewrite E. apply nth_In. simpl length in Hd. lia.
    + replace n with (N.to_nat (N.pred d)) by lia.
      fold (symbol charset (N.pred d)). rewrite IH.
      * simpl. f_equal. lia.
      * exact Hnd'.
      * simpl length in Hd. lia.
Qed.

Lemma symbol_0_neq (charset : bytes) (d : N) :
  NoDup charset -> d < N.of_nat (length charset) -> d <> 0 ->
  symbol charset d <> symbol charset 0.
Proof.
  intros Hnd Hd Hnz E.
  assert (H : @OK N d = OK 0).
  { rewrite <- (index_symbol charset d Hnd Hd), E.
    apply index_symbol; [exact Hnd | lia]. }
  congruence.
Qed.

(** *** The loops *)

Lemma size_bound (n : N) : n < 2 ^ N.of_nat (N.to_nat (N.size n)).
Proof. rewrite N2Nat.id. apply N.size_gt. Qed.

Lemma div_eucl_div_mod (n b : N) : N.div_eucl n b = (n / b, n mod b).
Proof. unfold N.div, N.modulo. destruct (N.div_eucl n b). reflexivity. Qed.

Lemma symbols_map (charset : bytes) (ds : list N) :
  Forall (fun d => d < N.of_nat (length charset)) ds ->
  symbols charset ds = map (symbol charset) ds.
Proof.
  induction 1 as [|d ds Hd _ IH]; [reflexivity|].
  unfold symbols in *. cbn [flat_map map].
  rewrite IH, slice_symbol by exact Hd. reflexivity.
Qed.

Lemma _b58encode_int_loop_digits (charset : bytes) (base : N) :
  2 <= base ->
  forall k int_ output,
    int_ < 2 ^ N.of_nat k ->
    _b58encode_int_loop (S k) charset base int_ output
    = OK (symbols charset (to_digits base k int_ []) ++ output).
Proof.
  intros Hbase. induction k as [|k IH]; intros int_ output Hk.
  - apply below_one in Hk. subst int_. reflexivity.
  - cbn [_b58encode_int_loop to_digits].
    destruct (N.eqb_spec int_ 0) as [->|Hnz]; [reflexivity|].
    rewrite div_eucl_div_mod.
    cbn [_b58encode_int_loop] in IH. rewrite IH
      by (apply div_below; [exact Hbase | exact Hk]).
    rewrite (to_digits_acc base k (int_ / base) [int_ mod base]).
    unfold symbols. rewrite flat_map_app. simpl flat_map.
    rewrite app_nil_r, <- app_assoc. reflexivity.
Qed.

Lemma _b58encode_int_digits (charset : bytes) (base int_ : N) :
  2 <= base ->
  _b58encode_int charset base int_ None
  = OK (symbols charset (digits base int_)).
Proof.
  intros Hbase. unfold _b58encode_int. rewrite andb_false_r.
  unfold fuel_of, digits.
  rewrite _b58encode_int_loop_digits by (try exact Hbase; apply size_bound).
  rewrite app_nil_r. reflexivity.
Qed.

Lemma b58decode_loop_digits : forall k acc result,
  acc < 2 ^ N.of_nat k ->
  b58decode_loop (S k) acc result = OK (to_digits 256 k acc [] ++ result).
Proof.
  induction k as [|k IH]; intros acc result Hk.
  - apply below_one in Hk. subst acc. reflexivity.
  - cbn [b58decode_loop to_digits].
    destruct (N.eqb_spec acc 0) as [->|Hnz]; [reflexivity|].
    destruct (N.ltb_spec 0 acc) as [_|H]; [|lia].
    rewrite div_eucl_div_mod.
    cbn [b58decode_loop] in IH. rewrite IH by (apply div_below; [lia | exact Hk]).
    rewrite (to_digits_acc 256 k (acc / 256) [acc mod 256]).
    rewrite <- app_assoc. reflexivity.
Qed.

Lemma _b58decode_int_from_symbols (charset : bytes) (base : N) :
  NoDup charset ->
  forall ds output,
    Forall (fun d => d < N.of_nat (length charset)) ds ->
    _b58decode_int_from charset base (map (symbol charset) ds) output
    = OK (of_digits base ds output).
Proof.
  intros Hnd. induction ds as [|d ds IH]; intros output Hds; [reflexivity|].
  inversion Hds as [|? ? Hd Hds']; subst.
  simpl. rewrite index_symbol by assumption. simpl.
  rewrite IH by exact Hds'. reflexivity.
Qed.

Lemma _b58decode_int_from_In (charset : bytes) (base : N) : forall val output,
  Forall (fun c => In c charset) val ->
  exists ds,
    _b58decode_int_from charset base val output = OK (of_digits base ds output)
    /\ Forall (fun d => d < N.of_nat (length charset)) ds
    /\ map (symbol charset) ds = val.
Proof.
  induction val as [|c val IH]; intros output Hval.
  - exists []. split; [reflexivity|]. split; [constructor | reflexivity].
  - inversion Hval as [|? ? Hc Hval']; subst.
    destruct (index_In charset c Hc) as (d & Hd & Hlt & Hsym).
    destruct (IH (output * base + d) Hval') as (ds & Hds & Hb & Hmap).
    exists (d :: ds). simpl. rewrite Hd. simpl. rewrite Hds.
    split; [reflexivity|]. split; [constructor; assumption | congruence].
Qed.

Lemma _b58decode_int_from_invalid (charset : bytes) (base : N) :
  forall val output,
    Exists (fun c => ~ In c charset) val ->
    _b58decode_int_from charset base val output = Raise InvalidSymbol.
Proof.
  induction val as [|c val IH]; intros output Hval; [inversion Hval|].
  simpl. destruct (in_dec Byte.byte_eq_dec c charset) as [Hc|Hc].
  - destruct (index_In charset c Hc) as (d & Hd & _). rewrite Hd. simpl.
    apply IH. inversion Hval; subst; [contradiction | assumption].
  - rewrite index_not_In by exact Hc. reflexivity.
Qed.

(** The accumulation of [b58encode]: the bytes read as a base-256 number. *)
Lemma b58encode_fold (val : bytes) :
  fold_left (fun '(p, acc) char => (N.shiftl p 8, acc + p * Byte.to_N char))
            (rev val) (1, 0)
  = (256 ^ N.of_nat (length val), of_digits 256 (map Byte.to_N val) 0).
Proof.
  induction val as [|x val IH]; [reflexivity|].
  simpl rev. rewrite fold_left_app, IH. cbn [fold_left map length].
  unfold of_digits at 2. cbn [fold_left]. fold (of_digits 256 (map Byte.to_N val) (0 * 256 + Byte.to_N x)).
  rewrite (of_digits_shift 256 ltac:(lia) (map Byte.to_N val) (0 * 256 + Byte.to_N x)).
  rewrite length_map, N.shiftl_mul_pow2, Nat2N.inj_succ, N.pow_succ_r'.
  f_equal; lia.
Qed.

(** ** The shape of what the codec returns *)

Lemma bytes_of_first_58 (charset : bytes) :
  length charset = 58%nat ->
  bytes_of_first (PyBytes charset) = OK [symbol charset 0].
Proof. destruct charset; [discriminate | reflexivity]. Qed.

Lemma digits_bounded (b n : N) : 2 <= b -> Forall (fun d => d < b) (digits b n).
Proof. intros Hb. apply to_digits_bounded; [exact Hb | constructor]. Qed.

Lemma digits_nz_head (b n : N) : 2 <= b -> nz_head (digits b n).
Proof.
  intros Hb. apply to_digits_nz_head; [exact Hb | apply size_bound |].
  intros _. exact I.
Qed.

Lemma of_digits_digits (b n : N) : 2 <= b -> of_digits b (digits b n) 0 = n.
Proof.
  intros Hb. unfold digits. rewrite of_to_digits; [reflexivity | exact Hb |].
  apply size_bound.
Qed.

Lemma digits_of_digits (b : N) (ds : list N) :
  2 <= b -> Forall (fun d => d < b) ds -> nz_head ds ->
  digits b (of_digits b ds 0) = ds.
Proof.
  intros Hb Hds Hnz. unfold digits.
  rewrite to_of_digits; [apply app_nil_r | assumption ..| apply size_bound].
Qed.

(** [b58encode] returns one [charset[0]] for each leading zero byte, and
    then the base-58 digits of the rest read as a big-endian number. *)
Lemma b58encode_shape (charset : bytes) (z : nat) (rest : bytes) :
  length charset = 58%nat ->
  not_head x00 rest ->
  b58encode (PyBytes (repeat x00 z ++ rest)) (PyBytes charset)
  = OK (repeat (symbol charset 0) z
        ++ map (symbol charset)
               (digits 58 (of_digits 256 (map Byte.to_N rest) 0))).
Proof.
  intros Hlen Hrest. unfold b58encode.
  rewrite (bytes_of_first_58 charset Hlen). cbn [bind].
  rewrite Hlen. cbn [Nat.eqb negb].
  rewrite lstrip_repeat by exact Hrest. rewrite pad_len_repeat.
  rewrite b58encode_fold.
  change (N.of_nat 58) with 58.
  rewrite _b58encode_int_digits by lia. cbn [bind].
  rewrite (bytes_of_first_58 charset Hlen). cbn [bind].
  unfold bytes. rewrite concat_repeat_one.
  rewrite symbols_map; [reflexivity|].
  rewrite Hlen. apply digits_bounded. lia.
Qed.

(** [b58decode] returns one zero byte for each leading [charset[0]], and
    then the base-256 digits of the number that the rest denotes. *)
Lemma b58decode_shape (charset : bytes) (z : nat) (rest : bytes) (acc : N) :
  length charset = 58%nat ->
  not_head (symbol charset 0) rest ->
  _b58decode_int charset 58 rest = OK acc ->
  b58decode (PyBytes (repeat (symbol charset 0) z ++ rest)) (PyBytes charset)
  = OK (repeat x00 z ++ map byte_of_N (digits 256 acc)).
Proof.
  intros Hlen Hrest Hacc. unfold b58decode.
  rewrite Hlen. cbn [Nat.eqb negb].
  rewrite (bytes_of_first_58 charset Hlen). cbn [bind].
  rewrite lstrip_repeat by exact Hrest. rewrite pad_len_repeat.
  change (N.of_nat 58) with 58. rewrite Hacc. cbn [bind].
  unfold fuel_of. rewrite b58decode_loop_digits by apply size_bound.
  cbn [bind]. rewrite app_nil_r. fold (digits 256 acc).
  rewrite bytes_of_ints_bounded by (apply digits_bounded; lia).
  reflexivity.
Qed.

Lemma not_head_map_symbol (charset : bytes) (ds : list N) :
  NoDup charset ->
  Forall (fun d => d < N.of_nat (length charset)) ds ->
  nz_head ds ->
  not_head (symbol charset 0) (map (symbol charset) ds).
Proof.
  intros Hnd Hds Hnz. destruct ds as [|d ds]; [exact I|].
  inversion Hds; subst. simpl in *. apply symbol_0_neq; assumption.
Qed.

Lemma not_head_map_byte (ds : list N) :
  Forall (fun d => d < 256) ds -> nz_head ds ->
  not_head x00 (map byte_of_N ds).
Proof.
  intros Hds Hnz. destruct ds as [|d ds]; [exact I|].
  inversion Hds; subst. simpl in *. intros E.
  apply Hnz. rewrite <- (to_of_byte_N d) by assumption. rewrite E. reflexivity.
Qed.

Lemma nz_head_map_to_N (rest : bytes) :
  not_head x00 rest -> nz_head (map Byte.to_N rest).
Proof.
  destruct rest as [|x rest]; [intros _; exact I|]. simpl. intros Hx E.
  apply Hx. rewrite <- (byte_of_to_N x), E. reflexivity.
Qed.

Lemma map_to_N_bounded (rest : bytes) :
  Forall (fun d => d < 256) (map Byte.to_N rest).
Proof.
  induction rest as [|x rest IH]; constructor; [|exact IH].
  pose proof (Byte.to_N_bounded x). lia.
Qed.

(** Decoding what [b58encode] returned for [repeat x00 z ++ rest]. *)
Lemma b58decode_b58encode_shape (charset : bytes) (z : nat) (rest : bytes) :
  valid_alphabet charset ->
  not_head x00 rest ->
  b58decode
    (PyBytes (repeat (symbol charset 0) z
              ++ map (symbol charset)
                     (digits 58 (of_digits 256 (map Byte.to_N rest) 0))))
    (PyBytes charset)
  = OK (repeat x00 z ++ rest).
Proof.
  intros [Hlen Hnd] Hrest.
  set (v := of_digits 256 (map Byte.to_N rest) 0).
  assert (Hds : Forall (fun d => d < N.of_nat (length charset)) (digits 58 v))
    by (rewrite Hlen; apply digits_bounded; lia).
  rewrite (b58decode_shape charset z _ v Hlen).
  - subst v. rewrite digits_of_digits, map_byte_of_to_N;
      [reflexivity | lia | apply map_to_N_bounded
      | apply nz_head_map_to_N, Hrest].
  - apply not_head_map_symbol; [exact Hnd | exact Hds |].
    apply digits_nz_head. lia.
  - unfold _b58decode_int.
    rewrite _b58decode_int_from_symbols by assumption.
    rewrite of_digits_digits by lia. reflexivity.
Qed.

(** ** Alphabets *)

Lemma existsb_eqb_In (x : byte) (l : bytes) :
  existsb (Byte.eqb x) l = false -> ~ In x l.
Proof.
  induction l as [|y l IH]; simpl; intros H; [tauto|].
  apply orb_false_iff in H. destruct H as [Hxy Hl].
  intros [E|Hin]; [|exact (IH Hl Hin)].
  subst y. destruct (byte_eqb_spec x x); [discriminate | congruence].
Qed.

Lemma forallb_existsb_In (charset s : bytes) :
  forallb (fun c => existsb (Byte.eqb c) charset) s = true ->
  Forall (fun c => In c charset) s.
Proof.
  intros H. apply Forall_forall. intros c Hc.
  rewrite forallb_forall in H. specialize (H c Hc).
  apply existsb_exists in H. destruct H as (y & Hy & E).
  apply Byte.byte_dec_bl in E. subst y. exact Hy.
Qed.

Lemma nodupb_NoDup (l : bytes) : nodupb l = true -> NoDup l.
Proof.
  induction l as [|x l IH]; simpl; intros H; constructor.
  - apply andb_true_iff in H. destruct H as [H _].
    apply existsb_eqb_In. destruct (existsb (Byte.eqb x) l); [discriminate|].
    reflexivity.
  - apply IH. apply andb_true_iff in H. tauto.
Qed.

Lemma DEFAULT_CHARSET_valid : valid_alphabet DEFAULT_CHARSET.
Proof. split; [reflexivity | apply nodupb_NoDup; vm_compute; reflexivity]. Qed.

Lemma CUSTOM_CHARSET_valid : valid_alphabet CUSTOM_CHARSET.
Proof. split; [reflexivity | apply nodupb_NoDup; vm_compute; reflexivity]. Qed.

(** ** The digest and the version byte *)

Lemma be_bytes_length (len : nat) (x : N) :
  length (SHA256.be_bytes len x) = len.
Proof. induction len as [|len IH]; simpl; [reflexivity|]. rewrite IH. reflexivity. Qed.

Lemma sha256_length (data : bytes) : length (sha256 data) = 32%nat.
Proof.
  unfold sha256, SHA256.digest, SHA256.digest_of.
  rewrite !length_app, !be_bytes_length. reflexivity.
Qed.

Lemma checksum_length (data : bytes) :
  length (firstn 4 (sha256 (sha256 data))) = 4%nat.
Proof. rewrite length_firstn, sha256_length. reflexivity. Qed.

Lemma v_addr_of_byte (address_version : Z) :
  (0 <= address_version <= 255)%Z ->
  v_addr_of address_version = OK [byte_of_N (Z.to_N address_version)].
Proof.
  intros Hv.
  assert (Hall : forallb version_byte_ok (seq 0 256) = true)
    by (vm_compute; reflexivity).
  rewrite forallb_forall in Hall.
  specialize (Hall (Z.to_nat address_version)).
  assert (Hin : In (Z.to_nat address_version) (seq 0 256))
    by (apply in_seq; lia).
  apply Hall in Hin. unfold version_byte_ok in Hin.
  rewrite Z2Nat.id in Hin by lia.
  replace (N.of_nat (Z.to_nat address_version))
    with (Z.to_N address_version) in Hin by lia.
  destruct (v_addr_of address_version) as [[|x [|y l]]| |]; try discriminate.
  apply Byte.byte_dec_bl in Hin. subst x. reflexivity.
Qed.

(** ** Base58: round trips *)

(** On a valid alphabet [b58encode] returns, and [b58decode] maps what it
    returned back to the input. *)
Lemma b58encode_then_b58decode (x charset : bytes) :
  valid_alphabet charset ->
  exists s,
    b58encode (PyBytes x) (PyBytes charset) = OK s
    /\ b58decode (PyBytes s) (PyBytes charset) = OK x.
Proof.
  intros Hvalid. destruct (lstrip_split x00 x) as [z Hz].
  pose proof (lstrip_not_head x00 x) as Hrest.
  set (rest := lstrip [x00] x) in *. rewrite Hz.
  eexists. split.
  - apply b58encode_shape; [apply Hvalid | exact Hrest].
  - apply b58decode_b58encode_shape; assumption.
Qed.

(** On a valid alphabet [b58decode] returns for every string of symbols,
    and [b58encode] maps what it returned back to the string. *)
Lemma b58decode_then_b58encode (s charset : bytes) :
  valid_alphabet charset ->
  Forall (fun c => In c charset) s ->
  exists x,
    b58decode (PyBytes s) (PyBytes charset) = OK x
    /\ b58encode (PyBytes x) (PyBytes charset) = OK s.
Proof.
  intros [Hlen Hnd] Hs. destruct (lstrip_split (symbol charset 0) s) as [z Hz].
  pose proof (lstrip_not_head (symbol charset 0) s) as Hrest.
  set (rest := lstrip [symbol charset 0] s) in *.
  assert (Hin : Forall (fun c => In c charset) rest).
  { rewrite Hz in Hs. apply Forall_app in Hs. tauto. }
  destruct (_b58decode_int_from_In charset 58 rest 0 Hin)
    as (ds & Hdec & Hds & Hmap).
  assert (Hds58 : Forall (fun d => d < 58) ds) by (rewrite Hlen in Hds; exact Hds).
  assert (Hnz : nz_head ds).
  { destruct ds as [|d ds]; [exact I|]. simpl. intros ->.
    rewrite <- Hmap in Hrest. simpl in Hrest. congruence. }
  set (w := of_digits 58 ds 0) in *.
  exists (repeat x00 z ++ map byte_of_N (digits 256 w)). split.
  - rewrite Hz. apply b58decode_shape; assumption.
  - rewrite b58encode_shape.
    + rewrite map_to_of_byte_N by (apply digits_bounded; lia).
      rewrite of_digits_digits by lia. subst w.
      rewrite digits_of_digits by (try assumption; lia).
      rewrite Hmap, <- Hz. reflexivity.
    + exact Hlen.
    + apply not_head_map_byte; [apply digits_bounded | apply digits_nz_head]; lia.
Qed.

(** C1: for every byte sequence [x] and every alphabet of 58 distinct
    symbols, decoding the encoding of [x] under the same alphabet returns
    [x]. *)
Theorem b58_decode_encode_roundtrip (x charset : bytes) :
  valid_alphabet charset ->
  (s <- b58encode (PyBytes x) (PyBytes charset) ;;
   b58decode (PyBytes s) (PyBytes charset)) = OK x.
Proof.
  intros Hvalid.
  destruct (b58encode_then_b58decode x charset Hvalid) as (s & Henc & Hdec).
  rewrite Henc. exact Hdec.
Qed.

Lemma b58_decode_encode_roundtrip_witness :
  valid_alphabet DEFAULT_CHARSET
  /\ (s <- b58encode (PyBytes [x00; x00; x2a; xff]) (PyBytes DEFAULT_CHARSET) ;;
      b58decode (PyBytes s) (PyBytes DEFAULT_CHARSET))
     = OK [x00; x00; x2a; xff].
Proof.
  split; [exact DEFAULT_CHARSET_valid|].
  apply (b58_decode_encode_roundtrip [x00; x00; x2a; xff] DEFAULT_CHARSET).
  exact DEFAULT_CHARSET_valid.
Defined.

(** C10: for every byte sequence [s] of symbols of the default alphabet,
    encoding the decoding of [s] returns [s]. *)
Theorem b58_encode_decode_roundtrip (s : bytes) :
  Forall (fun c => In c DEFAULT_CHARSET) s ->
  (x <- b58decode (PyBytes s) (PyBytes DEFAULT_CHARSET) ;;
   b58encode (PyBytes x) (PyBytes DEFAULT_CHARSET)) = OK s.
Proof.
  intros Hs.
  destruct (b58decode_then_b58encode s DEFAULT_CHARSET DEFAULT_CHARSET_valid Hs)
    as (x & Hdec & Henc).
  rewrite Hdec. exact Henc.
Qed.

Lemma b58_encode_decode_roundtrip_witness :
  Forall (fun c => In c DEFAULT_CHARSET) (list_byte_of_string "11z1a")
  /\ (x <- b58decode (PyBytes (list_byte_of_string "11z1a"))
                     (PyBytes DEFAULT_CHARSET) ;;
      b58encode (PyBytes x) (PyBytes DEFAULT_CHARSET))
     = OK (list_byte_of_string "11z1a").
Proof.
  assert (H : Forall (fun c => In c DEFAULT_CHARSET) (list_byte_of_string "11z1a")).
  { apply forallb_existsb_In. reflexivity. }
  split; [exact H|].
  apply (b58_encode_decode_roundtrip (list_byte_of_string "11z1a")). exact H.
Defined.

(** C4: when [x] does not start with a zero byte, the encoding of two zero
    bytes followed by [x] starts with exactly two copies of [charset[0]],
    and decoding it gives the two zero bytes (and [x]) back. *)
Theorem b58encode_two_leading_zeros (x charset : bytes) :
  valid_alphabet charset ->
  not_head x00 x ->
  exists tail,
    b58encode (PyBytes (x00 :: x00 :: x)) (PyBytes charset)
    = OK (symbol charset 0 :: symbol charset 0 :: tail)
    /\ not_head (symbol charset 0) tail
    /\ b58decode (PyBytes (symbol charset 0 :: symbol charset 0 :: tail))
                 (PyBytes charset)
       = OK (x00 :: x00 :: x).
Proof.
  intros Hvalid Hx.
  exists (map (symbol charset) (digits 58 (of_digits 256 (map Byte.to_N x) 0))).
  split; [|split].
  - apply (b58encode_shape charset 2 x); [apply Hvalid | exact Hx].
  - destruct Hvalid as [Hlen Hnd].
    apply not_head_map_symbol; [exact Hnd | |apply digits_nz_head; lia].
    rewrite Hlen. apply digits_bounded. lia.
  - apply (b58decode_b58encode_shape charset 2 x); assumption.
Qed.

Lemma b58encode_two_leading_zeros_witness :
  valid_alphabet DEFAULT_CHARSET
  /\ not_head x00 [x01; x00]
  /\ exists tail,
       b58encode (PyBytes [x00; x00; x01; x00]) (PyBytes DEFAULT_CHARSET)
       = OK (symbol DEFAULT_CHARSET 0 :: symbol DEFAULT_CHARSET 0 :: tail)
       /\ not_head (symbol DEFAULT_CHARSET 0) tail
       /\ b58decode
            (PyBytes (symbol DEFAULT_CHARSET 0 :: symbol DEFAULT_CHARSET 0 :: tail))
            (PyBytes DEFAULT_CHARSET)
          = OK [x00; x00; x01; x00].
Proof.
  split; [exact DEFAULT_CHARSET_valid|]. split; [simpl; discriminate|].
  apply (b58encode_two_leading_zeros [x01; x00] DEFAULT_CHARSET).
  - exact DEFAULT_CHARSET_valid.
  - simpl. discriminate.
Defined.

(** ** Base58: errors and edge cases *)

(** C6: when the input, once its leading [charset[0]] symbols are
    stripped, holds a byte that is not in the alphabet, [b58decode] raises
    the error of a failed lookup. *)
Theorem b58decode_invalid_symbol (val charset : bytes) :
  length charset = 58%nat ->
  Exists (fun c => ~ In c charset) (lstrip [symbol charset 0] val) ->
  b58decode (PyBytes val) (PyBytes charset) = Raise InvalidSymbol.
Proof.
  intros Hlen Hbad. unfold b58decode.
  rewrite Hlen. cbn [Nat.eqb negb].
  rewrite (bytes_of_first_58 charset Hlen). cbn [bind].
  unfold _b58decode_int.
  rewrite _b58decode_int_from_invalid by exact Hbad. reflexivity.
Qed.

Lemma b58decode_invalid_symbol_witness :
  length DEFAULT_CHARSET = 58%nat
  /\ Exists (fun c => ~ In c DEFAULT_CHARSET)
            (lstrip [symbol DEFAULT_CHARSET 0] (list_byte_of_string "11a0b"))
  /\ b58decode (PyBytes (list_byte_of_string "11a0b")) (PyBytes DEFAULT_CHARSET)
     = Raise InvalidSymbol.
Proof.
  assert (H : Exists (fun c => ~ In c DEFAULT_CHARSET)
                (lstrip [symbol DEFAULT_CHARSET 0] (list_byte_of_string "11a0b"))).
  { apply Exists_cons_tl, Exists_cons_hd, existsb_eqb_In. reflexivity. }
  split; [reflexivity|]. split; [exact H|].
  apply (b58decode_invalid_symbol (list_byte_of_string "11a0b") DEFAULT_CHARSET);
    [reflexivity | exact H].
Defined.

(** C9, as the specification states it, fails: neither call returns a
    one-element sequence on the empty input. *)
Lemma empty_input_not_singleton :
  ~ (b58encode (PyBytes []) (PyBytes DEFAULT_CHARSET)
     = OK [symbol DEFAULT_CHARSET 0]
     /\ b58decode (PyBytes []) (PyBytes DEFAULT_CHARSET) = OK [x00]).
Proof. intros [H _]. vm_compute in H. discriminate H. Qed.

(** C9, amended: [b58encode] of the empty byte sequence returns the empty
    byte sequence, and [b58decode] of the empty input, bytes or text,
    returns the empty byte sequence. *)
Theorem empty_input_returns_empty (charset : bytes) :
  length charset = 58%nat ->
  b58encode (PyBytes []) (PyBytes charset) = OK []
  /\ b58decode (PyBytes []) (PyBytes charset) = OK []
  /\ b58decode (PyStr EmptyString) (PyBytes charset) = OK [].
Proof.
  intros Hlen.
  assert (Hdec : b58decode (PyBytes []) (PyBytes charset) = OK []).
  { apply (b58decode_shape charset 0 [] 0 Hlen); [exact I | reflexivity]. }
  split; [|split].
  - apply (b58encode_shape charset 0 [] Hlen). exact I.
  - exact Hdec.
  - exact Hdec.
Qed.

Lemma empty_input_returns_empty_witness :
  length DEFAULT_CHARSET = 58%nat
  /\ b58encode (PyBytes []) (PyBytes DEFAULT_CHARSET) = OK []
  /\ b58decode (PyBytes []) (PyBytes DEFAULT_CHARSET) = OK []
  /\ b58decode (PyStr EmptyString) (PyBytes DEFAULT_CHARSET) = OK [].
Proof.
  split; [reflexivity|]. apply (empty_input_returns_empty DEFAULT_CHARSET). reflexivity.
Defined.

(** The length guard of the codec, on an alphabet that is not empty. *)
Lemma b58encode_bad_length (val charset : bytes) :
  charset <> [] -> length charset <> 58%nat ->
  b58encode (PyBytes val) (PyBytes charset)
  = Raise (ValueError (charset_base (length charset))).
Proof.
  intros Hne Hlen. unfold b58encode.
  destruct charset as [|c charset]; [congruence|]. cbn [bytes_of_first bind].
  destruct (Nat.eqb_spec (length (c :: charset)) 58); [contradiction|].
  reflexivity.
Qed.

Lemma b58decode_bad_length (val : pyobj) (charset : bytes) :
  length charset <> 58%nat ->
  b58decode val (PyBytes charset)
  = Raise (ValueError (charset_base (length charset))).
Proof.
  intros Hlen. unfold b58decode.
  destruct (Nat.eqb_spec (length charset) 58); [contradiction|]. reflexivity.
Qed.

(** C5 at the empty alphabet: [b58encode] and [b58check_encode] raise
    [IndexError], which is not the error of the length guard, while
    [b58decode] raises the error of the length guard. *)
Theorem empty_alphabet_raises_IndexError :
  b58encode (PyBytes [x61; x62; x63]) (PyBytes []) = Raise IndexError
  /\ b58check_encode (PyBytes [x61; x62; x63]) 0 (PyBytes []) = Raise IndexError
  /\ ~ ConfigError IndexError
  /\ b58decode (PyBytes [x61; x62; x63]) (PyBytes [])
     = Raise (ValueError (charset_base 0)).
Proof.
  split; [reflexivity|]. split; [vm_compute; reflexivity|].
  split; [|reflexivity]. intros [base H]. discriminate H.
Qed.

(** ** Base58Check *)

Lemma bytes_eqb_refl (x : bytes) : bytes_eqb x x = true.
Proof. unfold bytes_eqb. destruct (list_eq_dec _ x x); congruence. Qed.

Lemma bytes_eqb_length (x y : bytes) :
  length x <> length y -> bytes_eqb x y = false.
Proof.
  intros H. unfold bytes_eqb. destruct (list_eq_dec _ x y); [|reflexivity].
  subst y. contradiction.
Qed.

Lemma skipn_length_app {A} (l1 l2 : list A) : skipn (length l1) (l1 ++ l2) = l2.
Proof. induction l1 as [|x l1 IH]; simpl; [reflexivity | exact IH]. Qed.

Lemma firstn_length_app {A} (l1 l2 : list A) : firstn (length l1) (l1 ++ l2) = l1.
Proof. induction l1 as [|x l1 IH]; simpl; [reflexivity | rewrite IH; reflexivity]. Qed.

(** The checksum of a payload, as the specification defines it. *)
Lemma framed_length (payload : bytes) :
  (length (payload ++ firstn 4 (sha256 (sha256 payload))) - 4)%nat
  = length payload.
Proof. rewrite length_app, checksum_length. lia. Qed.

(** For a version of one byte, [b58check_encode] encodes the version byte,
    the content and the checksum. *)
Lemma b58check_encode_payload (content : bytes) (address_version : Z)
    (charset : pyobj) :
  (0 <= address_version <= 255)%Z ->
  b58check_encode (PyBytes content) address_version charset
  = b58encode
      (PyBytes ((byte_of_N (Z.to_N address_version) :: content)
                ++ firstn 4 (sha256 (sha256
                     (byte_of_N (Z.to_N address_version) :: content)))))
      charset.
Proof.
  intros Hv. unfold b58check_encode.
  rewrite (v_addr_of_byte address_version Hv). cbn [bind bytes_add app].
  rewrite slice_first4. reflexivity.
Qed.

(** An address whose decoding is a payload followed by its checksum is
    valid, and decodes to the payload without its first byte. *)
Lemma b58check_framed (val charset : pyobj) (version : byte) (content : bytes) :
  b58decode val charset
  = OK ((version :: content)
        ++ firstn 4 (sha256 (sha256 (version :: content)))) ->
  b58check_address_is_valid val charset = OK true
  /\ b58check_decode val charset = OK content.
Proof.
  intros Hdec.
  assert (Hvalid : b58check_address_is_valid val charset = OK true).
  { unfold b58check_address_is_valid. rewrite Hdec. cbn [bind].
    rewrite slice_last4, slice_but_last4, slice_first4, framed_length.
    rewrite skipn_length_app, firstn_length_app, bytes_eqb_refl.
    reflexivity. }
  split; [exact Hvalid|].
  unfold b58check_decode. rewrite Hvalid. cbn [bind negb]. rewrite Hdec.
  cbn [bind]. rewrite slice_1_but_last4, framed_length, firstn_length_app.
  reflexivity.
Qed.

(** C2: for every content and every version in [0,255], on a valid
    alphabet, [b58check_encode] returns an address that
    [b58check_address_is_valid] accepts and that [b58check_decode] maps
    back to the content. *)
Theorem b58check_roundtrip (content charset : bytes) (version : Z) :
  valid_alphabet charset ->
  (0 <= version <= 255)%Z ->
  exists address,
    b58check_encode (PyBytes content) version (PyBytes charset) = OK address
    /\ b58check_address_is_valid (PyBytes address) (PyBytes charset) = OK true
    /\ b58check_decode (PyBytes address) (PyBytes charset) = OK content.
Proof.
  intros Hvalid Hv. rewrite b58check_encode_payload by exact Hv.
  destruct (b58encode_then_b58decode
              ((byte_of_N (Z.to_N version) :: content)
               ++ firstn 4 (sha256 (sha256
                    (byte_of_N (Z.to_N version) :: content))))
              charset Hvalid) as (address & Henc & Hdec).
  exists address. split; [exact Henc|].
  apply (b58check_framed _ _ (byte_of_N (Z.to_N version)) content). exact Hdec.
Qed.

Lemma b58check_roundtrip_witness :
  valid_alphabet DEFAULT_CHARSET
  /\ (0 <= 5 <= 255)%Z
  /\ exists address,
       b58check_encode (PyBytes [xde; xad; x00]) 5 (PyBytes DEFAULT_CHARSET)
       = OK address
       /\ b58check_address_is_valid (PyBytes address) (PyBytes DEFAULT_CHARSET)
          = OK true
       /\ b58check_decode (PyBytes address) (PyBytes DEFAULT_CHARSET)
          = OK [xde; xad; x00].
Proof.
  split; [exact DEFAULT_CHARSET_valid|]. split; [lia|].
  apply (b58check_roundtrip [xde; xad; x00] DEFAULT_CHARSET 5);
    [exact DEFAULT_CHARSET_valid | lia].
Defined.

(** C3: for every version in [0,255], [b58check_encode] renders the
    version as the one byte of that value and returns the Base58 encoding
    of version byte, content and checksum, the checksum being the first
    four bytes of the double SHA-256 of version byte and content. *)
Theorem b58check_encode_layout (content : bytes) (version : Z)
    (charset : pyobj) :
  (0 <= version <= 255)%Z ->
  exists version_byte checksum,
    v_addr_of version = OK [version_byte]
    /\ Z.of_N (Byte.to_N version_byte) = version
    /\ checksum = firstn 4 (sha256 (sha256 ([version_byte] ++ content)))
    /\ length checksum = 4%nat
    /\ b58check_encode (PyBytes content) version charset
       = b58encode (PyBytes ([version_byte] ++ content ++ checksum)) charset.
Proof.
  intros Hv. exists (byte_of_N (Z.to_N version)). eexists.
  split; [apply v_addr_of_byte, Hv|].
  split; [rewrite to_of_byte_N by lia; lia|].
  split; [reflexivity|].
  split; [apply checksum_length|].
  apply b58check_encode_payload, Hv.
Qed.

Lemma b58check_encode_layout_witness :
  (0 <= 111 <= 255)%Z
  /\ exists version_byte checksum,
       v_addr_of 111 = OK [version_byte]
       /\ Z.of_N (Byte.to_N version_byte) = 111%Z
       /\ checksum = firstn 4 (sha256 (sha256 ([version_byte] ++ [x01; x02])))
       /\ length checksum = 4%nat
       /\ b58check_encode (PyBytes [x01; x02]) 111 (PyBytes DEFAULT_CHARSET)
          = b58encode (PyBytes ([version_byte] ++ [x01; x02] ++ checksum))
                      (PyBytes DEFAULT_CHARSET).
Proof.
  split; [lia|].
  apply (b58check_encode_layout [x01; x02] 111 (PyBytes DEFAULT_CHARSET)). lia.
Defined.

(** Fewer than four decoded bytes cannot equal a checksum of four. *)
Lemma short_checksum_differs (raw data : bytes) :
  (length raw < 4)%nat ->
  bytes_eqb (slice raw (Some (-4)%Z) None)
            (slice (sha256 (sha256 data)) None (Some 4%Z)) = false.
Proof.
  intros Hshort. apply bytes_eqb_length.
  rewrite slice_last4, slice_first4, length_skipn, length_firstn, sha256_length.
  simpl Nat.min. lia.
Qed.

(** C7: when the address decodes to fewer than four bytes,
    [b58check_address_is_valid] returns [False]. *)
Theorem short_address_is_invalid (val charset : pyobj) (raw : bytes) :
  b58decode val charset = OK raw ->
  (length raw < 4)%nat ->
  b58check_address_is_valid val charset = OK false.
Proof.
  intros Hdec Hshort. unfold b58check_address_is_valid.
  rewrite Hdec. cbn [bind].
  rewrite short_checksum_differs by exact Hshort.
  reflexivity.
Qed.

Lemma short_address_is_invalid_witness :
  b58decode (PyStr "1z") (PyBytes DEFAULT_CHARSET) = OK [x00; x39]
  /\ (length [x00; x39] < 4)%nat
  /\ b58check_address_is_valid (PyStr "1z") (PyBytes DEFAULT_CHARSET)
     = OK false.
Proof.
  split; [reflexivity|]. split; [simpl; lia|].
  apply (short_address_is_invalid (PyStr "1z") (PyBytes DEFAULT_CHARSET)
           [x00; x39]); [reflexivity | simpl; lia].
Defined.

(** C8: when the address decodes to [raw], [b58check_decode] raises
    [IncorrectAddress] exactly when [b58check_address_is_valid] returns
    [False], and otherwise returns [raw] without its first byte and its
    last four bytes. *)
Theorem b58check_decode_spec (val charset : pyobj) (raw : bytes) :
  b58decode val charset = OK raw ->
  exists valid,
    b58check_address_is_valid val charset = OK valid
    /\ (b58check_decode val charset = Raise InvalidAddress <-> valid = false)
    /\ (valid = true ->
        b58check_decode val charset
        = OK (skipn 1 (firstn (length raw - 4) raw))
        /\ (4 <= length raw)%nat
        /\ forall version content checksum,
             raw = version :: content ++ checksum ->
             length checksum = 4%nat ->
             b58check_decode val charset = OK content).
Proof.
  intros Hdec.
  assert (Hv : exists valid, b58check_address_is_valid val charset = OK valid).
  { unfold b58check_address_is_valid. rewrite Hdec. cbn [bind].
    destruct (negb _); eexists; reflexivity. }
  destruct Hv as [valid Hvalid]. exists valid. split; [exact Hvalid|].
  assert (Hres : valid = true ->
            b58check_decode val charset
            = OK (skipn 1 (firstn (length raw - 4) raw))).
  { intros ->. unfold b58check_decode. rewrite Hvalid. cbn [bind negb].
    rewrite Hdec. cbn [bind]. rewrite slice_1_but_last4. reflexivity. }
  split; [|intros Htrue; split; [exact (Hres Htrue)|split]].
  - unfold b58check_decode at 1. rewrite Hvalid. cbn [bind].
    destruct valid; cbn [negb].
    + rewrite Hdec. cbn [bind]. split; discriminate.
    + split; reflexivity.
  - destruct (Nat.lt_ge_cases (length raw) 4) as [Hshort|Hlong]; [|exact Hlong].
    unfold b58check_address_is_valid in Hvalid. rewrite Hdec in Hvalid.
    cbn [bind] in Hvalid.
    rewrite short_checksum_differs in Hvalid by exact Hshort.
    subst valid. discriminate Hvalid.
  - intros version content checksum Hraw Hlen. rewrite (Hres Htrue).
    subst raw. change (version :: content ++ checksum)
      with ((version :: content) ++ checksum).
    rewrite length_app, Hlen, Nat.add_sub, firstn_length_app. reflexivity.
Qed.

Lemma b58check_decode_spec_witness :
  b58decode (PyStr "15m9A3DD") (PyBytes DEFAULT_CHARSET)
  = OK [x00; x2a; x33; x26; x21; x74]
  /\ exists valid,
       b58check_address_is_valid (PyStr "15m9A3DD") (PyBytes DEFAULT_CHARSET)
       = OK valid
       /\ (b58check_decode (PyStr "15m9A3DD") (PyBytes DEFAULT_CHARSET)
           = Raise InvalidAddress <-> valid = false)
       /\ (valid = true ->
           b58check_decode (PyStr "15m9A3DD") (PyBytes DEFAULT_CHARSET)
           = OK (skipn 1 (firstn (length [x00; x2a; x33; x26; x21; x74] - 4)
                                 [x00; x2a; x33; x26; x21; x74]))
           /\ (4 <= length [x00; x2a; x33; x26; x21; x74])%nat
           /\ forall version content checksum,
                [x00; x2a; x33; x26; x21; x74]
                = version :: content ++ checksum ->
                length checksum = 4%nat ->
                b58check_decode (PyStr "15m9A3DD") (PyBytes DEFAULT_CHARSET)
                = OK content).
Proof.
  split; [vm_compute; reflexivity|].
  apply (b58check_decode_spec (PyStr "15m9A3DD") (PyBytes DEFAULT_CHARSET)
           [x00; x2a; x33; x26; x21; x74]).
  vm_compute. reflexivity.
Defined.

(** ** The length guard on the five entry points *)

Lemma alphabet_rejection_nonempty (val content charset : bytes) (version : Z) :
  charset <> [] ->
  length charset <> 58%nat ->
  (0 <= version <= 255)%Z ->
  let rejected {A} (r : outcome A) :=
    r = Raise (ValueError (charset_base (length charset))) in
  rejected (b58encode (PyBytes val) (PyBytes charset))
  /\ rejected (b58decode (PyBytes val) (PyBytes charset))
  /\ rejected (b58check_encode (PyBytes content) version (PyBytes charset))
  /\ rejected (b58check_address_is_valid (PyBytes val) (PyBytes charset))
  /\ rejected (b58check_decode (PyBytes val) (PyBytes charset)).
Proof.
  intros Hne Hlen Hv rejected. unfold rejected.
  pose proof (b58decode_bad_length (PyBytes val) charset Hlen) as Hdec.
  split; [apply b58encode_bad_length; assumption|].
  split; [exact Hdec|].
  split; [rewrite b58check_encode_payload by exact Hv;
          apply b58encode_bad_length; assumption|].
  assert (Hvalid : b58check_address_is_valid (PyBytes val) (PyBytes charset)
                   = Raise (ValueError (charset_base (length charset)))).
  { unfold b58check_address_is_valid. rewrite Hdec. reflexivity. }
  split; [exact Hvalid|].
  unfold b58check_decode. rewrite Hvalid. reflexivity.
Qed.

(** ** The loops end within the iteration bound *)

Lemma _b58decode_int_from_in_bound (charset : bytes) (base : N) :
  forall val output, _b58decode_int_from charset base val output <> OutOfFuel.
Proof.
  assert (Hidx : forall cs c, index cs c <> OutOfFuel).
  { induction cs as [|x cs IH]; intros c; simpl; [discriminate|].
    destruct (Byte.eqb x c); [discriminate|].
    specialize (IH c). destruct (index cs c); simpl; congruence. }
  induction val as [|c val IH]; intros output; simpl; [discriminate|].
  specialize (Hidx charset c).
  destruct (index charset c) as [i| |]; simpl; [apply IH | discriminate | congruence].
Qed.

Lemma b58decode_in_bound (val charset : pyobj) :
  b58decode val charset <> OutOfFuel.
Proof.
  unfold b58decode.
  set (v := match val with PyStr s => encode_utf8 s | PyBytes b => b end).
  set (cs := match charset with PyStr s => encode_utf8 s | PyBytes b => b end).
  destruct (negb (Nat.eqb (length cs) 58)); [discriminate|].
  destruct cs as [|c0 cs']; [discriminate|]. cbn [bytes_of_first bind].
  set (rest := lstrip [c0] v).
  pose proof (_b58decode_int_from_in_bound (c0 :: cs')
                (N.of_nat (length (c0 :: cs'))) rest 0) as Hint.
  unfold _b58decode_int.
  destruct (_b58decode_int_from _ _ rest 0) as [acc| |];
    [|discriminate|congruence].
  cbn [bind]. unfold fuel_of.
  rewrite b58decode_loop_digits by apply size_bound. cbn [bind].
  rewrite app_nil_r.
  rewrite bytes_of_ints_bounded by (apply to_digits_bounded; [lia|constructor]).
  discriminate.
Qed.

Lemma b58encode_in_bound (val charset : pyobj) :
  b58encode val charset <> OutOfFuel.
Proof.
  unfold b58encode.
  destruct charset as [[|c0 cs]|[|c s]]; cbn [bytes_of_first bind];
    try discriminate.
  destruct val as [v|t]; cbn [bind]; [|discriminate].
  destruct (Nat.eqb_spec (length (c0 :: cs)) 58) as [E|_]; [|discriminate].
  cbn [negb]. rewrite b58encode_fold, E. change (N.of_nat 58) with 58.
  rewrite _b58encode_int_digits by lia. discriminate.
Qed.

(** ** The test vectors of the repository *)

Example test_encoding :
  b58encode (PyBytes [x00; x76; x80; xad; xec; x8e; xab; xca; xba; xc6; x76;
                      xbe; x9e; x83; x85; x4a; xde; x0b; xd2; x2c; xdb; x0b;
                      xb9; x60; xde])
            (PyBytes DEFAULT_CHARSET)
  = OK (list_byte_of_string "1BoatSLRHtKNngkdXEeobR76b53LETtpyT").
Proof. vm_compute. reflexivity. Qed.

Example test_decoding_from_unicode :
  b58decode (PyStr "1BoatSLRHtKNngkdXEeobR76b53LETtpyT") (PyBytes DEFAULT_CHARSET)
  = OK [x00; x76; x80; xad; xec; x8e; xab; xca; xba; xc6; x76;
        xbe; x9e; x83; x85; x4a; xde; x0b; xd2; x2c; xdb; x0b;
        xb9; x60; xde].
Proof. vm_compute. reflexivity. Qed.

Example test_custom_charset_encoding :
  b58encode (PyBytes [x00; x88; xa5; xa5; x7c; x82; x9f; x40; xf2; x5e; xa8;
                      x33; x85; xbb; xde; x6c; x3d; x8b; x4c; xa0; x82; xed;
                      x43; x86; x41])
            (PyBytes CUSTOM_CHARSET)
  = OK (list_byte_of_string "rDTXLQ7ZKZVKz33zJbHjgVShjsBnqMBhmN").
Proof. vm_compute. reflexivity. Qed.

Example test_check_encoding :
  b58check_encode
    (PyBytes [x00; x76; x80; xad; xec; x8e; xab; xca; xba; xc6; x76;
              xbe; x9e; x83; x85; x4a; xde; x0b; xd2; x2c; xdb; x0b;
              xb9; x60; xde])
    0 (PyBytes DEFAULT_CHARSET)
  = OK (list_byte_of_string "112Dh9Vjc6BeqJNk7YRf4BZVreDP8yTp41i3Jd5Ny").
Proof. vm_compute. reflexivity. Qed.

Example test_check_custom_charset_encoding :
  b58check_encode
    (PyBytes [x00; x88; xa5; xa5; x7c; x82; x9f; x40; xf2; x5e; xa8;
              x33; x85; xbb; xde; x6c; x3d; x8b; x4c; xa0; x82; xed;
              x43; x86; x41])
    0 (PyBytes CUSTOM_CHARSET)
  = OK (list_byte_of_string "rrpQWAHDdmvPvLn3mbbAemwZJghBLNRCFCVQCt8tH").
Proof. vm_compute. reflexivity. Qed.

Example test_check_decoding :
  b58check_decode (PyStr "112Dh9Vjc6BeqJNk7YRf4BZVreDP8yTp41i3Jd5Ny")
                  (PyBytes DEFAULT_CHARSET)
  = OK [x00; x76; x80; xad; xec; x8e; xab; xca; xba; xc6; x76;
        xbe; x9e; x83; x85; x4a; xde; x0b; xd2; x2c; xdb; x0b;
        xb9; x60; xde].
Proof. vm_compute. reflexivity. Qed.

Example test_invalid_address :
  b58check_address_is_valid (PyStr "p41i3Jd5Ny112Dh9Vjc6BeqJNk7YRf4BZVreDP8yT")
                            (PyBytes DEFAULT_CHARSET) = OK false
  /\ b58check_decode (PyStr "p41i3Jd5Ny112Dh9Vjc6BeqJNk7YRf4BZVreDP8yT")
                     (PyBytes DEFAULT_CHARSET) = Raise IncorrectAddress.
Proof. split; vm_compute; reflexivity. Qed.

Example test_encoding_text_raises_typeerror :
  b58encode (PyStr "test text") (PyBytes DEFAULT_CHARSET) = Raise TypeError.
Proof. reflexivity. Qed.

(** ** Further properties of the codec *)

(** *** Argument types *)

(** Text as the value to encode raises [TypeError] with every [bytes]
    alphabet that is not empty, whatever its length: the type check comes
    before the length guard. *)
Theorem b58encode_text_raises_TypeError (text : string) (charset : bytes) :
  charset <> [] ->
  b58encode (PyStr text) (PyBytes charset) = Raise TypeError.
Proof.
  intros Hne. destruct charset as [|c charset]; [congruence|]. reflexivity.
Qed.

Lemma b58encode_text_raises_TypeError_witness :
  [x61; x62] <> []
  /\ b58encode (PyStr "test text") (PyBytes [x61; x62]) = Raise TypeError.
Proof.
  split; [discriminate|].
  apply (b58encode_text_raises_TypeError "test text" [x61; x62]). discriminate.
Defined.

(** [b58encode] never returns when the alphabet is given as text, not even
    for 58 distinct characters: it raises [IndexError] for the empty text
    and [TypeError] for every other one, before looking at the value. *)
Theorem b58encode_text_alphabet_never_returns (val : pyobj) (charset : string) :
  b58encode val (PyStr charset)
  = Raise (if (String.length charset =? 0)%nat then IndexError else TypeError).
Proof. destruct charset; reflexivity. Qed.

Lemma byte_of_ord (c : ascii) : byte_of_N (ord c) = byte_of_ascii c.
Proof.
  destruct c as [[] [] [] [] [] [] [] []]; vm_compute; reflexivity.
Qed.

Lemma encode_utf8_isascii (s : string) :
  isascii s = true -> encode_utf8 s = list_byte_of_string s.
Proof.
  unfold list_byte_of_string.
  induction s as [|c s IH]; intros H; [reflexivity|].
  simpl in H. apply andb_true_iff in H. destruct H as [Hc Hs].
  cbn [encode_utf8 list_ascii_of_string map]. rewrite Hc, byte_of_ord, IH by exact Hs.
  reflexivity.
Qed.

(** Decoding text made of ASCII characters, with an alphabet given as
    ASCII text, is decoding the same characters given as bytes. *)
Theorem b58decode_text_as_bytes (val charset : string) :
  isascii val = true ->
  isascii charset = true ->
  b58decode (PyStr val) (PyStr charset)
  = b58decode (PyBytes (list_byte_of_string val))
              (PyBytes (list_byte_of_string charset)).
Proof.
  intros Hval Hcs. unfold b58decode.
  rewrite (encode_utf8_isascii val Hval), (encode_utf8_isascii charset Hcs).
  reflexivity.
Qed.

Lemma b58decode_text_as_bytes_witness :
  isascii "1BoatSLRHt" = true
  /\ isascii "123456789ABCDEFGHJKLMNPQRSTUVWXYZabcdefghijkmnopqrstuvwxyz" = true
  /\ b58decode (PyStr "1BoatSLRHt")
       (PyStr "123456789ABCDEFGHJKLMNPQRSTUVWXYZabcdefghijkmnopqrstuvwxyz")
     = b58decode (PyBytes (list_byte_of_string "1BoatSLRHt"))
         (PyBytes (list_byte_of_string
            "123456789ABCDEFGHJKLMNPQRSTUVWXYZabcdefghijkmnopqrstuvwxyz")).
Proof.
  split; [reflexivity|]. split; [reflexivity|].
  apply (b58decode_text_as_bytes "1BoatSLRHt"
           "123456789ABCDEFGHJKLMNPQRSTUVWXYZabcdefghijkmnopqrstuvwxyz");
    reflexivity.
Defined.

(** *** What [b58encode] returns *)

Lemma symbol_In (charset : bytes) (d : N) :
  d < N.of_nat (length charset) -> In (symbol charset d) charset.
Proof. intros Hd. unfold symbol. apply nth_In. lia. Qed.

Lemma split_leading (c : byte) (val : bytes) :
  exists z rest, val = repeat c z ++ rest /\ not_head c rest
                 /\ lstrip [c] val = rest.
Proof.
  destruct (lstrip_split c val) as [z Hz].
  exists z, (lstrip [c] val). split; [exact Hz|].
  split; [apply lstrip_not_head | reflexivity].
Qed.

(** With an alphabet of 58 bytes, distinct or not, [b58encode] returns for
    every byte sequence, and every byte it returns is in the alphabet. *)
Theorem b58encode_output_in_alphabet (x charset : bytes) :
  length charset = 58%nat ->
  exists s,
    b58encode (PyBytes x) (PyBytes charset) = OK s
    /\ Forall (fun c => In c charset) s.
Proof.
  intros Hlen. destruct (split_leading x00 x) as (z & rest & Hx & Hrest & _).
  subst x. eexists. split; [apply b58encode_shape; assumption|].
  apply Forall_app. split.
  - apply Forall_forall. intros c Hc. apply repeat_spec in Hc. subst c.
    apply symbol_In. rewrite Hlen. reflexivity.
  - apply Forall_map. eapply Forall_impl; [|apply (digits_bounded 58); lia].
    intros d Hd. apply symbol_In. rewrite Hlen. exact Hd.
Qed.

Lemma b58encode_output_in_alphabet_witness :
  length CUSTOM_CHARSET = 58%nat
  /\ exists s,
       b58encode (PyBytes [x00; xff; x10]) (PyBytes CUSTOM_CHARSET) = OK s
       /\ Forall (fun c => In c CUSTOM_CHARSET) s.
Proof.
  split; [reflexivity|].
  apply (b58encode_output_in_alphabet [x00; xff; x10] CUSTOM_CHARSET).
  reflexivity.
Defined.

(** A payload of [z] zero bytes is encoded as [z] copies of [charset[0]],
    and [z] copies of [charset[0]] are decoded as [z] zero bytes. *)
Theorem all_zero_payload (z : nat) (charset : bytes) :
  length charset = 58%nat ->
  b58encode (PyBytes (repeat x00 z)) (PyBytes charset)
  = OK (repeat (symbol charset 0) z)
  /\ b58decode (PyBytes (repeat (symbol charset 0) z)) (PyBytes charset)
     = OK (repeat x00 z).
Proof.
  intros Hlen. split.
  - pose proof (b58encode_shape charset z [] Hlen I) as H.
    rewrite !app_nil_r in H. exact H.
  - pose proof (b58decode_shape charset z [] 0 Hlen I eq_refl) as H.
    rewrite !app_nil_r in H. exact H.
Qed.

Lemma all_zero_payload_witness :
  length DEFAULT_CHARSET = 58%nat
  /\ b58encode (PyBytes (repeat x00 3)) (PyBytes DEFAULT_CHARSET)
     = OK (repeat (symbol DEFAULT_CHARSET 0) 3)
  /\ b58decode (PyBytes (repeat (symbol DEFAULT_CHARSET 0) 3))
               (PyBytes DEFAULT_CHARSET)
     = OK (repeat x00 3).
Proof.
  split; [reflexivity|]. apply (all_zero_payload 3 DEFAULT_CHARSET). reflexivity.
Defined.

(** *** When [b58decode] returns *)

Lemma Exists_lstrip (charset : bytes) (val : bytes) :
  length charset = 58%nat ->
  Exists (fun c => ~ In c charset) val ->
  Exists (fun c => ~ In c charset) (lstrip [symbol charset 0] val).
Proof.
  intros Hlen Hval.
  destruct (split_leading (symbol charset 0) val) as (z & rest & Hv & _ & Hrest).
  rewrite Hrest. rewrite Hv in Hval. apply Exists_app in Hval.
  destruct Hval as [Hz|Hr]; [|exact Hr].
  apply Exists_exists in Hz. destruct Hz as (c & Hc & Hnot).
  apply repeat_spec in Hc. subst c. exfalso. apply Hnot, symbol_In.
  rewrite Hlen. reflexivity.
Qed.

Lemma b58decode_returns_of_In (val charset : bytes) :
  length charset = 58%nat ->
  Forall (fun c => In c charset) val ->
  exists x, b58decode (PyBytes val) (PyBytes charset) = OK x.
Proof.
  intros Hlen Hval.
  destruct (split_leading (symbol charset 0) val) as (z & rest & Hv & Hrest & _).
  subst val. apply Forall_app in Hval. destruct Hval as [_ Hin].
  destruct (_b58decode_int_from_In charset 58 rest 0 Hin) as (ds & Hdec & _).
  eexists. apply (b58decode_shape charset z rest _ Hlen Hrest Hdec).
Qed.

Lemma b58decode_raises_of_foreign (val charset : bytes) :
  length charset = 58%nat ->
  ~ Forall (fun c => In c charset) val ->
  b58decode (PyBytes val) (PyBytes charset) = Raise InvalidSymbol.
Proof.
  intros Hlen Hval. apply neg_Forall_Exists_neg in Hval.
  - unfold b58decode. rewrite Hlen. cbn [Nat.eqb negb].
    rewrite (bytes_of_first_58 charset Hlen). cbn [bind].
    unfold _b58decode_int.
    rewrite _b58decode_int_from_invalid
      by (apply Exists_lstrip; assumption).
    reflexivity.
  - intros c. apply in_dec, Byte.byte_eq_dec.
Qed.

Lemma b58decode_OK_In (val x charset : bytes) :
  length charset = 58%nat ->
  b58decode (PyBytes val) (PyBytes charset) = OK x ->
  Forall (fun c => In c charset) val.
Proof.
  intros Hlen Hdec.
  destruct (Forall_dec (fun c => In c charset)
              (fun c => in_dec Byte.byte_eq_dec c charset) val) as [H|H];
    [exact H|].
  rewrite (b58decode_raises_of_foreign val charset Hlen H) in Hdec.
  discriminate Hdec.
Qed.

(** With an alphabet of 58 bytes, [b58decode] returns exactly when every
    byte of the input is in the alphabet; otherwise it raises the
    [ValueError] of the failed lookup, wherever the foreign byte stands. *)
Theorem b58decode_returns_iff (val charset : bytes) :
  length charset = 58%nat ->
  (Forall (fun c => In c charset) val ->
   exists x, b58decode (PyBytes val) (PyBytes charset) = OK x)
  /\ (~ Forall (fun c => In c charset) val ->
      b58decode (PyBytes val) (PyBytes charset) = Raise InvalidSymbol).
Proof.
  intros Hlen. split.
  - apply b58decode_returns_of_In, Hlen.
  - apply b58decode_raises_of_foreign, Hlen.
Qed.

Lemma b58decode_returns_iff_witness :
  length DEFAULT_CHARSET = 58%nat
  /\ (Forall (fun c => In c DEFAULT_CHARSET) (list_byte_of_string "1z0") ->
      exists x, b58decode (PyBytes (list_byte_of_string "1z0"))
                          (PyBytes DEFAULT_CHARSET) = OK x)
  /\ (~ Forall (fun c => In c DEFAULT_CHARSET) (list_byte_of_string "1z0") ->
      b58decode (PyBytes (list_byte_of_string "1z0")) (PyBytes DEFAULT_CHARSET)
      = Raise InvalidSymbol).
Proof.
  split; [reflexivity|].
  apply (b58decode_returns_iff (list_byte_of_string "1z0") DEFAULT_CHARSET).
  reflexivity.
Defined.

(** *** Numbers and lengths *)

Lemma of_digits_upper (b : N) (ds : list N) :
  2 <= b -> Forall (fun d => d < b) ds ->
  of_digits b ds 0 < b ^ N.of_nat (length ds).
Proof.
  intros Hb. induction 1 as [|d ds Hd _ IH]; [simpl; lia|].
  unfold of_digits. cbn [fold_left]. fold (of_digits b ds (0 * b + d)).
  cbn [length]. rewrite (of_digits_shift b Hb), Nat2N.inj_succ, N.pow_succ_r'.
  nia.
Qed.

Lemma of_digits_lower (b d : N) (ds : list N) :
  2 <= b -> d <> 0 ->
  b ^ N.of_nat (length ds) <= of_digits b (d :: ds) 0.
Proof.
  intros Hb Hd. unfold of_digits. cbn [fold_left].
  fold (of_digits b ds (0 * b + d)). rewrite (of_digits_shift b Hb). nia.
Qed.

Lemma of_digits_zeros (b : N) (z : nat) (ds : list N) :
  of_digits b (repeat 0 z ++ ds) 0 = of_digits b ds 0.
Proof.
  induction z as [|z IH]; [reflexivity|].
  unfold of_digits in *. cbn [repeat app fold_left]. exact IH.
Qed.

Lemma pow_index_lt (b : N) (j k : nat) :
  2 <= b -> b ^ N.of_nat j < b ^ N.of_nat k -> (j < k)%nat.
Proof.
  intros Hb H. apply N.pow_lt_mono_r_iff in H; lia.
Qed.

Lemma digits_length_le (b n : N) (k : nat) :
  2 <= b -> n < b ^ N.of_nat k -> (length (digits b n) <= k)%nat.
Proof.
  intros Hb Hn. pose proof (of_digits_digits b n Hb) as Hval.
  pose proof (digits_nz_head b n Hb) as Hnz.
  destruct (digits b n) as [|d ds]; [simpl; lia|].
  simpl in Hnz. pose proof (of_digits_lower b d ds Hb Hnz) as Hlow.
  rewrite Hval in Hlow. cbn [length].
  apply (pow_index_lt b (length ds) k Hb). lia.
Qed.

Lemma digits_length_gt (b n : N) (k : nat) :
  2 <= b -> b ^ N.of_nat k <= n -> (k < length (digits b n))%nat.
Proof.
  intros Hb Hn. pose proof (of_digits_digits b n Hb) as Hval.
  pose proof (of_digits_upper b (digits b n) Hb (digits_bounded b n Hb)) as Hup.
  rewrite Hval in Hup. apply (pow_index_lt b k _ Hb). lia.
Qed.

Lemma pow_58_le_256 (k : nat) : 58 ^ N.of_nat k <= 256 ^ N.of_nat k.
Proof. apply N.pow_le_mono_l. lia. Qed.

(** The number that the returned symbols denote in base 58, read by the
    decoder's own [_b58decode_int], is the number that the input bytes
    denote in base 256. *)
Theorem b58encode_preserves_number (x charset : bytes) :
  valid_alphabet charset ->
  exists s,
    b58encode (PyBytes x) (PyBytes charset) = OK s
    /\ _b58decode_int charset 58 s = OK (of_digits 256 (map Byte.to_N x) 0).
Proof.
  intros [Hlen Hnd].
  destruct (split_leading x00 x) as (z & rest & Hx & Hrest & _). subst x.
  eexists. split; [apply b58encode_shape; assumption|].
  set (v := of_digits 256 (map Byte.to_N rest) 0).
  replace (repeat (symbol charset 0) z) with (map (symbol charset) (repeat 0 z))
    by apply map_repeat.
  rewrite <- map_app. unfold _b58decode_int.
  rewrite _b58decode_int_from_symbols.
  - rewrite of_digits_zeros, of_digits_digits by lia.
    rewrite map_app, map_repeat.
    change (Byte.to_N x00) with 0. rewrite of_digits_zeros. reflexivity.
  - exact Hnd.
  - rewrite Hlen. apply Forall_app. split.
    + apply Forall_forall. intros d Hd. apply repeat_spec in Hd. subst d.
      reflexivity.
    + apply digits_bounded. lia.
Qed.

Lemma b58encode_preserves_number_witness :
  valid_alphabet DEFAULT_CHARSET
  /\ exists s,
       b58encode (PyBytes [x00; x01; x00]) (PyBytes DEFAULT_CHARSET) = OK s
       /\ _b58decode_int DEFAULT_CHARSET 58 s
          = OK (of_digits 256 (map Byte.to_N [x00; x01; x00]) 0).
Proof.
  split; [exact DEFAULT_CHARSET_valid|].
  apply (b58encode_preserves_number [x00; x01; x00] DEFAULT_CHARSET).
  exact DEFAULT_CHARSET_valid.
Defined.

(** Encoding never shortens: the output of [b58encode] has at least as
    many symbols as the input has bytes. *)
Theorem b58encode_length (x charset : bytes) :
  length charset = 58%nat ->
  exists s,
    b58encode (PyBytes x) (PyBytes charset) = OK s
    /\ (length x <= length s)%nat.
Proof.
  intros Hlen.
  destruct (split_leading x00 x) as (z & rest & Hx & Hrest & _). subst x.
  eexists. split; [apply b58encode_shape; assumption|].
  rewrite !length_app, !repeat_length, length_map.
  apply Nat.add_le_mono_l.
  destruct rest as [|r rest]; [simpl; lia|]. simpl in Hrest.
  apply (digits_length_gt 58 _ (length rest)); [lia|].
  eapply N.le_trans; [apply pow_58_le_256|].
  rewrite <- (length_map Byte.to_N rest). cbn [map].
  apply of_digits_lower; [lia|].
  intros E. apply Hrest. rewrite <- (byte_of_to_N r), E. reflexivity.
Qed.

Lemma b58encode_length_witness :
  length DEFAULT_CHARSET = 58%nat
  /\ exists s,
       b58encode (PyBytes [x00; x01; xff]) (PyBytes DEFAULT_CHARSET) = OK s
       /\ (length [x00; x01; xff] <= length s)%nat.
Proof.
  split; [reflexivity|].
  apply (b58encode_length [x00; x01; xff] DEFAULT_CHARSET). reflexivity.
Defined.

(** Decoding never lengthens: what [b58decode] returns has at most as many
    bytes as the input has symbols. *)
Theorem b58decode_length (s x charset : bytes) :
  length charset = 58%nat ->
  b58decode (PyBytes s) (PyBytes charset) = OK x ->
  (length x <= length s)%nat.
Proof.
  intros Hlen Hdec.
  pose proof (b58decode_OK_In s x charset Hlen Hdec) as Hin.
  destruct (split_leading (symbol charset 0) s) as (z & rest & Hs & Hrest & _).
  subst s. apply Forall_app in Hin. destruct Hin as [_ Hin].
  destruct (_b58decode_int_from_In charset 58 rest 0 Hin)
    as (ds & Hint & Hds & Hmap).
  rewrite (b58decode_shape charset z rest _ Hlen Hrest Hint) in Hdec.
  injection Hdec as <-.
  rewrite !length_app, !repeat_length, length_map, <- Hmap, length_map.
  apply Nat.add_le_mono_l. apply digits_length_le; [lia|].
  eapply N.lt_le_trans; [|apply pow_58_le_256].
  apply of_digits_upper; [lia|]. rewrite Hlen in Hds. exact Hds.
Qed.

Lemma b58decode_length_witness :
  length DEFAULT_CHARSET = 58%nat
  /\ b58decode (PyBytes (list_byte_of_string "1zz")) (PyBytes DEFAULT_CHARSET)
     = OK [x00; x0d; x23]
  /\ (length [x00; x0d; x23] <= length (list_byte_of_string "1zz"))%nat.
Proof.
  split; [reflexivity|]. split; [vm_compute; reflexivity|].
  apply (b58decode_length (list_byte_of_string "1zz") [x00; x0d; x23]
           DEFAULT_CHARSET); [reflexivity | vm_compute; reflexivity].
Defined.

(** *** Leading zeros and injectivity *)

(** On a valid alphabet the output of [b58encode] has as many leading
    [charset[0]] symbols as the input has leading zero bytes, both counted
    the way the code counts them: length before minus length after
    [lstrip]. *)
Theorem b58encode_leading_count (x charset : bytes) :
  valid_alphabet charset ->
  exists s,
    b58encode (PyBytes x) (PyBytes charset) = OK s
    /\ (length s - length (lstrip [symbol charset 0] s)
        = length x - length (lstrip [x00] x))%nat.
Proof.
  intros [Hlen Hnd].
  destruct (split_leading x00 x) as (z & rest & Hx & Hrest & Hstrip).
  eexists. split; [rewrite Hx; apply b58encode_shape; assumption|].
  rewrite Hstrip, Hx, pad_len_repeat.
  rewrite lstrip_repeat, pad_len_repeat; [reflexivity|].
  apply not_head_map_symbol; [exact Hnd | |apply digits_nz_head; lia].
  rewrite Hlen. apply digits_bounded. lia.
Qed.

Lemma b58encode_leading_count_witness :
  valid_alphabet DEFAULT_CHARSET
  /\ exists s,
       b58encode (PyBytes [x00; x00; x00; x07]) (PyBytes DEFAULT_CHARSET) = OK s
       /\ (length s - length (lstrip [symbol DEFAULT_CHARSET 0] s)
           = length [x00; x00; x00; x07]
             - length (lstrip [x00] [x00; x00; x00; x07]))%nat.
Proof.
  split; [exact DEFAULT_CHARSET_valid|].
  apply (b58encode_leading_count [x00; x00; x00; x07] DEFAULT_CHARSET).
  exact DEFAULT_CHARSET_valid.
Defined.

(** On a valid alphabet two byte sequences with the same encoding are the
    same sequence. *)
Theorem b58encode_injective (x y s charset : bytes) :
  valid_alphabet charset ->
  b58encode (PyBytes x) (PyBytes charset) = OK s ->
  b58encode (PyBytes y) (PyBytes charset) = OK s ->
  x = y.
Proof.
  intros Hvalid Hx Hy.
  destruct (b58encode_then_b58decode x charset Hvalid) as (sx & Ex & Dx).
  destruct (b58encode_then_b58decode y charset Hvalid) as (sy & Ey & Dy).
  rewrite Hx in Ex. rewrite Hy in Ey.
  injection Ex as <-. injection Ey as <-. congruence.
Qed.

Lemma b58encode_injective_witness :
  valid_alphabet DEFAULT_CHARSET
  /\ b58encode (PyBytes [x00; x39]) (PyBytes DEFAULT_CHARSET)
     = OK (list_byte_of_string "1z")
  /\ b58encode (PyBytes [x00; x39]) (PyBytes DEFAULT_CHARSET)
     = OK (list_byte_of_string "1z")
  /\ [x00; x39] = [x00; x39].
Proof.
  split; [exact DEFAULT_CHARSET_valid|].
  split; [reflexivity|]. split; [reflexivity|].
  apply (b58encode_injective [x00; x39] [x00; x39] (list_byte_of_string "1z")
           DEFAULT_CHARSET);
    [exact DEFAULT_CHARSET_valid | reflexivity | reflexivity].
Defined.

(** ** Further properties of the protocol *)

(** *** Versions outside one byte *)

Lemma version_check (check : nat -> bool) (lo len : nat) (v : Z) :
  forallb check (seq lo len) = true ->
  (Z.of_nat lo <= v < Z.of_nat (lo + len))%Z ->
  check (Z.to_nat v) = true.
Proof.
  intros Hall Hv. rewrite forallb_forall in Hall. apply Hall, in_seq. lia.
Qed.

(** A negative version makes [b58check_encode] raise the [ValueError] of
    [bytes.fromhex], whatever the content and the alphabet: [hex] writes
    the sign before the prefix, so the prefix is not removed. *)
Theorem b58check_encode_negative_version (val charset : pyobj) (version : Z) :
  (version < 0)%Z ->
  b58check_encode val version charset = Raise (ValueError non_hexadecimal).
Proof.
  intros Hv. unfold b58check_encode, v_addr_of, hex.
  destruct (Z.ltb_spec version 0) as [_|H]; [|lia].
  reflexivity.
Qed.

Lemma b58check_encode_negative_version_witness :
  (-1 < 0)%Z
  /\ b58check_encode (PyBytes [x01]) (-1) (PyBytes DEFAULT_CHARSET)
     = Raise (ValueError non_hexadecimal).
Proof.
  split; [lia|].
  apply (b58check_encode_negative_version (PyBytes [x01])
           (PyBytes DEFAULT_CHARSET) (-1)). lia.
Defined.

(** A version from 256 to 4095 has three hexadecimal digits, so
    [bytes.fromhex] refuses it and [b58check_encode] raises [ValueError],
    whatever the content and the alphabet. *)
Theorem b58check_encode_three_digit_version (val charset : pyobj)
    (version : Z) :
  (256 <= version <= 4095)%Z ->
  b58check_encode val version charset = Raise (ValueError non_hexadecimal).
Proof.
  intros Hv.
  assert (Hall : forallb version_refused (seq 256 3840) = true)
    by (vm_compute; reflexivity).
  pose proof (version_check version_refused 256 3840 version Hall
                ltac:(simpl; lia)) as H.
  unfold version_refused in H. rewrite Z2Nat.id in H by lia.
  unfold b58check_encode.
  destruct (v_addr_of version) as [a|[| |[]|]|]; try discriminate H.
  reflexivity.
Qed.

Lemma b58check_encode_three_digit_version_witness :
  (256 <= 256 <= 4095)%Z
  /\ b58check_encode (PyBytes [x01]) 256 (PyBytes DEFAULT_CHARSET)
     = Raise (ValueError non_hexadecimal).
Proof.
  split; [lia|].
  apply (b58check_encode_three_digit_version (PyBytes [x01])
           (PyBytes DEFAULT_CHARSET) 256). lia.
Defined.

(** A version from 4096 to 65535 is rendered as two bytes, and
    [b58check_decode] removes only one: on a valid alphabet the address is
    valid, but decoding it returns the low byte of the version followed by
    the content. *)
Theorem b58check_two_byte_version (content charset : bytes) (version : Z) :
  valid_alphabet charset ->
  (4096 <= version <= 65535)%Z ->
  exists address,
    b58check_encode (PyBytes content) version (PyBytes charset) = OK address
    /\ b58check_address_is_valid (PyBytes address) (PyBytes charset) = OK true
    /\ b58check_decode (PyBytes address) (PyBytes charset)
       = OK (byte_of_N (Z.to_N version) :: content).
Proof.
  intros Hvalid Hv.
  assert (Hall : forallb version_two_bytes_row (seq 16 240) = true)
    by (vm_compute; reflexivity).
  pose proof (Z.div_mod version 256 ltac:(lia)) as Hdm.
  pose proof (Z.mod_pos_bound version 256 ltac:(lia)) as Hmod.
  pose proof (version_check version_two_bytes_row 16 240 (version / 256) Hall
                ltac:(simpl; lia)) as Hrow.
  unfold version_two_bytes_row in Hrow. rewrite forallb_forall in Hrow.
  specialize (Hrow (Z.to_nat (version mod 256))
                ltac:(apply in_seq; simpl; lia)).
  replace (Z.of_nat (Z.to_nat (version / 256)) * 256
           + Z.of_nat (Z.to_nat (version mod 256)))%Z
    with version in Hrow by lia.
  rename Hrow into H. unfold version_two_bytes in H.
  unfold b58check_encode.
  destruct (v_addr_of version) as [[|hi [|lo [|? ?]]]| |]; try discriminate H.
  apply andb_true_iff in H. destruct H as [_ Hlo].
  apply Byte.byte_dec_bl in Hlo. subst lo.
  cbn [bind bytes_add app]. rewrite slice_first4.
  set (lo := byte_of_N (Z.to_N version)).
  destruct (b58encode_then_b58decode
              ((hi :: lo :: content)
               ++ firstn 4 (sha256 (sha256 (hi :: lo :: content))))
              charset Hvalid) as (address & Henc & Hdec).
  exists address. split; [exact Henc|].
  apply (b58check_framed _ _ hi (lo :: content)). exact Hdec.
Qed.

Lemma b58check_two_byte_version_witness :
  valid_alphabet DEFAULT_CHARSET
  /\ (4096 <= 4660 <= 65535)%Z
  /\ exists address,
       b58check_encode (PyBytes [xaa]) 4660 (PyBytes DEFAULT_CHARSET)
       = OK address
       /\ b58check_address_is_valid (PyBytes address) (PyBytes DEFAULT_CHARSET)
          = OK true
       /\ b58check_decode (PyBytes address) (PyBytes DEFAULT_CHARSET)
          = OK (byte_of_N (Z.to_N 4660) :: [xaa]).
Proof.
  split; [exact DEFAULT_CHARSET_valid|]. split; [lia|].
  apply (b58check_two_byte_version [xaa] DEFAULT_CHARSET 4660);
    [exact DEFAULT_CHARSET_valid | lia].
Defined.

(** *** Errors of the codec pass through *)

(** An address holding a byte outside the alphabet is not reported as an
    invalid address: [b58check_address_is_valid] does not return [False]
    and [b58check_decode] does not raise [IncorrectAddress]; both raise the
    [ValueError] of the failed lookup. *)
Theorem b58check_foreign_symbol (val charset : bytes) :
  length charset = 58%nat ->
  ~ Forall (fun c => In c charset) val ->
  b58check_address_is_valid (PyBytes val) (PyBytes charset)
  = Raise InvalidSymbol
  /\ b58check_decode (PyBytes val) (PyBytes charset) = Raise InvalidSymbol.
Proof.
  intros Hlen Hval.
  assert (Hvalid : b58check_address_is_valid (PyBytes val) (PyBytes charset)
                   = Raise InvalidSymbol).
  { unfold b58check_address_is_valid.
    rewrite (b58decode_raises_of_foreign val charset Hlen Hval). reflexivity. }
  split; [exact Hvalid|].
  unfold b58check_decode. rewrite Hvalid. reflexivity.
Qed.

Lemma not_In_default_0 :
  ~ Forall (fun c => In c DEFAULT_CHARSET) (list_byte_of_string "1O0").
Proof.
  intros H. inversion H as [|? ? _ H1]; subst.
  inversion H1 as [|? ? Hin _]; subst.
  revert Hin. apply existsb_eqb_In. reflexivity.
Qed.

Lemma b58check_foreign_symbol_witness :
  length DEFAULT_CHARSET = 58%nat
  /\ ~ Forall (fun c => In c DEFAULT_CHARSET) (list_byte_of_string "1O0")
  /\ b58check_address_is_valid (PyBytes (list_byte_of_string "1O0"))
                               (PyBytes DEFAULT_CHARSET)
     = Raise InvalidSymbol
  /\ b58check_decode (PyBytes (list_byte_of_string "1O0"))
                     (PyBytes DEFAULT_CHARSET)
     = Raise InvalidSymbol.
Proof.
  split; [reflexivity|]. split; [exact not_In_default_0|].
  apply (b58check_foreign_symbol (list_byte_of_string "1O0") DEFAULT_CHARSET);
    [reflexivity | exact not_In_default_0].
Defined.

(** *** From a valid address back to it *)

Lemma bytes_eqb_true (x y : bytes) : bytes_eqb x y = true -> x = y.
Proof.
  unfold bytes_eqb. destruct (list_eq_dec _ x y); [trivial | discriminate].
Qed.

(** On a valid alphabet, an address that [b58check_address_is_valid]
    accepts and that decodes to at least five bytes is the encoding of what
    [b58check_decode] returns for it, under the version of its first
    byte. *)
Theorem b58check_encode_b58check_decode (address raw charset : bytes) :
  valid_alphabet charset ->
  b58decode (PyBytes address) (PyBytes charset) = OK raw ->
  (5 <= length raw)%nat ->
  b58check_address_is_valid (PyBytes address) (PyBytes charset) = OK true ->
  exists content,
    b58check_decode (PyBytes address) (PyBytes charset) = OK content
    /\ b58check_encode (PyBytes content)
         (Z.of_N (Byte.to_N (hd x00 raw))) (PyBytes charset)
       = OK address.
Proof.
  intros Hvalid Hdec Hlen Hok.
  pose proof (b58decode_OK_In address raw charset (proj1 Hvalid) Hdec) as Hin.
  destruct (b58decode_then_b58encode address charset Hvalid Hin)
    as (x & Hx & Henc).
  rewrite Hdec in Hx. injection Hx as <-.
  unfold b58check_address_is_valid in Hok. rewrite Hdec in Hok.
  cbn [bind] in Hok.
  rewrite slice_last4, slice_but_last4, slice_first4 in Hok.
  destruct (bytes_eqb _ _) eqn:Hsum in Hok; [|discriminate Hok].
  apply bytes_eqb_true in Hsum.
  pose proof (firstn_skipn (length raw - 4) raw) as Hraw.
  destruct (firstn (length raw - 4) raw) as [|version content] eqn:Hbody.
  { apply (f_equal (@length byte)) in Hbody. rewrite length_firstn in Hbody.
    simpl in Hbody. lia. }
  exists content. split.
  - unfold b58check_decode, b58check_address_is_valid. rewrite Hdec.
    cbn [bind]. rewrite slice_last4, slice_but_last4, slice_first4, Hbody.
    rewrite Hsum, bytes_eqb_refl. cbn [negb bind].
    rewrite slice_1_but_last4, Hbody. reflexivity.
  - assert (Hhd : hd x00 raw = version) by (rewrite <- Hraw; reflexivity).
    rewrite Hhd. pose proof (Byte.to_N_bounded version).
    rewrite b58check_encode_payload by lia.
    rewrite N2Z.id, byte_of_to_N, <- Hsum, Hraw. exact Henc.
Qed.

Lemma b58check_encode_b58check_decode_witness :
  valid_alphabet DEFAULT_CHARSET
  /\ b58decode (PyBytes (list_byte_of_string "15m9A3DD"))
               (PyBytes DEFAULT_CHARSET)
     = OK [x00; x2a; x33; x26; x21; x74]
  /\ (5 <= length [x00; x2a; x33; x26; x21; x74])%nat
  /\ b58check_address_is_valid (PyBytes (list_byte_of_string "15m9A3DD"))
                               (PyBytes DEFAULT_CHARSET) = OK true
  /\ exists content,
       b58check_decode (PyBytes (list_byte_of_string "15m9A3DD"))
                       (PyBytes DEFAULT_CHARSET) = OK content
       /\ b58check_encode (PyBytes content)
            (Z.of_N (Byte.to_N (hd x00 [x00; x2a; x33; x26; x21; x74])))
            (PyBytes DEFAULT_CHARSET)
          = OK (list_byte_of_string "15m9A3DD").
Proof.
  split; [exact DEFAULT_CHARSET_valid|].
  split; [vm_compute; reflexivity|]. split; [simpl; lia|].
  split; [vm_compute; reflexivity|].
  apply (b58check_encode_b58check_decode (list_byte_of_string "15m9A3DD")
           [x00; x2a; x33; x26; x21; x74] DEFAULT_CHARSET);
    [exact DEFAULT_CHARSET_valid | vm_compute; reflexivity | simpl; lia
    | vm_compute; reflexivity].
Defined.

(** *** Termination *)

Lemma fromhex_in_bound : forall n s,
  (String.length s <= n)%nat -> fromhex s <> OutOfFuel.
Proof.
  induction n as [|n IH]; intros s Hs.
  - destruct s; [discriminate | simpl in Hs; lia].
  - destruct s as [|c rest]; [discriminate|]. simpl in Hs. cbn [fromhex].
    destruct (isspace c); [apply IH; lia|].
    destruct (hex_value c) as [top|]; [|discriminate].
    destruct rest as [|c' rest']; [discriminate|].
    destruct (hex_value c') as [bot|]; [|discriminate].
    simpl in Hs. specialize (IH rest' ltac:(lia)).
    destruct (fromhex rest'); simpl; congruence.
Qed.

(** The two [while] loops always end: whatever the value, the alphabet and
    the version, no entry point runs a loop past the bit length of the
    number it divides, so every call returns or raises. *)
Theorem entry_points_terminate (val charset : pyobj) (version : Z) :
  b58encode val charset <> OutOfFuel
  /\ b58decode val charset <> OutOfFuel
  /\ b58check_encode val version charset <> OutOfFuel
  /\ b58check_address_is_valid val charset <> OutOfFuel
  /\ b58check_decode val charset <> OutOfFuel.
Proof.
  pose proof (b58decode_in_bound val charset) as Hdec.
  assert (Hvalid : b58check_address_is_valid val charset <> OutOfFuel).
  { unfold b58check_address_is_valid.
    destruct (b58decode val charset) as [raw| |]; cbn [bind];
      [|discriminate|congruence].
    destruct (negb _); discriminate. }
  split; [apply b58encode_in_bound|]. split; [exact Hdec|].
  split; [|split; [exact Hvalid|]].
  - unfold b58check_encode, v_addr_of.
    match goal with |- context [fromhex ?s] =>
      pose proof (fromhex_in_bound (String.length s) s (Nat.le_refl _)) as Hhex;
      destruct (fromhex s) as [v_addr| |]
    end; cbn [bind]; [|discriminate|congruence].
    destruct val as [content|text]; cbn [bytes_add bind]; [|discriminate].
    apply b58encode_in_bound.
  - unfold b58check_decode.
    destruct (b58check_address_is_valid val charset) as [[|]| |];
      cbn [bind negb]; [|discriminate|discriminate|congruence].
    destruct (b58decode val charset); cbn [bind]; [discriminate|discriminate|congruence].
Qed.
